(** * Dependency analysis of a Go repository: a shallow embedding of [main.go]

    The repository holds one program, [main.go], in two revisions: the
    current one (with the platform-specific workspace handling, the CRLF
    normalisation and the import-path filter) and an earlier one.  The
    current revision is embedded at top level, the earlier one in
    [Module Legacy]; both keep the names of the Go source.

    Go values are modelled as follows.
    - A Go [string] is a byte sequence: [string] of the Standard Library.
    - A Go [error] is a value of the inductive type [error]; the [nil]
      error is [None] of [option error].
    - A function returning [(T, error)] returns a pair: Go lets both
      components be set, and [findGoMod] does so.
    - The operating system, the external commands and the libraries the
      program calls ([os], [os/exec], [path/filepath], [encoding/json],
      [golang.org/x/mod/modfile]) are explicit arguments or small models
      written after their documented behaviour. *)

From Stdlib Require Import List String Ascii Bool Arith Lia.
Import ListNotations.
Open Scope list_scope.
Open Scope string_scope.

Set Implicit Arguments.
Set Warnings "-register-all".

(** ** Errors *)

Inductive error : Type :=
| SkipDir                       (* filepath.SkipDir *)
| SkipAll                       (* filepath.SkipAll *)
| errorString (msg : string)    (* built by this program with fmt.Errorf *)
| sysError (msg : string).      (* reported by the OS, a command or a library *)

(** [err.Error()] *)
Definition Error (e : error) : string :=
  match e with
  | SkipDir => "skip this directory"
  | SkipAll => "skip everything and stop the walk"
  | errorString msg => msg
  | sysError msg => msg
  end.

(** [fmt.Errorf(prefix + "%v", err)] *)
Definition Errorf (prefix : string) (e : error) : error :=
  errorString (prefix ++ Error e).

Definition is_SkipDir (e : error) : bool :=
  match e with SkipDir => true | _ => false end.

Definition is_SkipAll (e : error) : bool :=
  match e with SkipAll => true | _ => false end.

(** ** Bytes and the [strings] package *)

Definition CR : string := String "013"%char "".
Definition LF : string := String "010"%char "".
Definition CRLF : string := CR ++ LF.

(** [strings.HasPrefix(s, p)] *)
Definition HasPrefix (s p : string) : bool := prefix p s.

(** [strings.Contains(s, substr)]: some suffix of [s] starts with [substr]. *)
Fixpoint Contains (s substr : string) : bool :=
  prefix substr s ||
  match s with
  | EmptyString => false
  | String _ s' => Contains s' substr
  end.

(** [strings.ReplaceAll(s, old, new)] for a non-empty [old] (the program has
    no other use): the non-overlapping occurrences of [old] are replaced
    from left to right.  [skip] counts the bytes of an occurrence that are
    still to be dropped. *)
Fixpoint replaceFrom (skip : nat) (s old new : string) : string :=
  match s with
  | EmptyString => EmptyString
  | String c s' =>
      match skip with
      | S k => replaceFrom k s' old new
      | O =>
          if prefix old s
          then new ++ replaceFrom (length old - 1) s' old new
          else String c (replaceFrom 0 s' old new)
      end
  end.

Definition ReplaceAll (s old new : string) : string := replaceFrom 0 s old new.

(** ** The platform: [runtime.GOOS] and [path/filepath] *)

Definition is_windows (GOOS : string) : bool := GOOS =? "windows".

(** [filepath.Separator] *)
Definition Separator (GOOS : string) : string :=
  if is_windows GOOS then "\" else "/".

(** [filepath.ToSlash] *)
Definition ToSlash (GOOS : string) (path : string) : string :=
  if Separator GOOS =? "/" then path
  else ReplaceAll path (Separator GOOS) "/".

(** [filepath.Join(dir, name)] for a clean, non-empty [dir] that does not end
    in a separator and a single path element [name]. *)
Definition Join (GOOS : string) (dir name : string) : string :=
  dir ++ Separator GOOS ++ name.

(** ** Data model *)

Record UpdateInfo : Type := {
  Update_Path : string;
  Update_Version : string
}.

Record ModuleInfo : Type := {
  Path : string;
  Version : string;
  Update : option UpdateInfo     (* a nil pointer is [None] *)
}.

(** ** [getDependencies]

    [exec.LookPath] and the run of [go list -m -u -json all] are outcomes
    given by the environment.  A [json.Decoder] over the captured standard
    output is modelled by the outcomes of its successive [Decode] calls,
    one per top-level JSON value of the buffer: [inl m] for a value that
    decodes to the record [m], [inr e] for one on which [Decode] fails.
    [dec.More()] holds exactly when an outcome is left, so an empty buffer
    is the empty list. *)

Definition Decoder : Type := list (ModuleInfo + error).

Record ListingEnv : Type := {
  LookPath_go : option error;          (* error of exec.LookPath("go") *)
  go_list : string -> Decoder * option error
                                       (* buffer and error of cmd.Run in a directory *)
}.

(** The condition of the [if] in the decoding loop. *)
Definition keepPath (GOOS dir : string) (m : ModuleInfo) : bool :=
  let normalizedPath := ToSlash GOOS (Path m) in
  let normalizedDir := ToSlash GOOS dir in
  negb (HasPrefix normalizedPath ".") &&
  negb (HasPrefix normalizedPath "/") &&
  negb (Contains normalizedPath normalizedDir).

(** [for dec.More() { ... }], with [deps] threaded through. *)
Fixpoint decodeLoop (GOOS dir : string) (dec : Decoder) (deps : list ModuleInfo)
  : list ModuleInfo * option error :=
  match dec with
  | [] => (deps, None)
  | inr e :: _ => ([], Some (Errorf "error decoding dependencies: " e))
  | inl m :: dec' =>
      if keepPath GOOS dir m
      then decodeLoop GOOS dir dec' (deps ++ [m])
      else decodeLoop GOOS dir dec' deps
  end.

Definition getDependencies (GOOS : string) (env : ListingEnv) (dir : string)
  : list ModuleInfo * option error :=
  match LookPath_go env with
  | Some e => ([], Some (Errorf "go command not found: " e))
  | None =>
      let (out, err) := go_list env dir in
      match err with
      | Some e => ([], Some (Errorf "error listing dependencies: " e))
      | None => decodeLoop GOOS dir out []
      end
  end.

(** The retention rule as the specification words it: the update is present
    and the import path is external. *)
Definition hasUpdate (m : ModuleInfo) : bool :=
  match Update m with Some _ => true | None => false end.

Definition spec_retained (GOOS dir : string) (m : ModuleInfo) : bool :=
  hasUpdate m && keepPath GOOS dir m.

(** ** [findGoMod] and [filepath.Walk]

    The directory tree that [Walk] sees.  [Dir] lists the entries of a
    directory in any order; [readDirNames] sorts them by name, which
    [readDir] below does.  [DirUnreadable] is a directory whose listing
    fails, [NoStat] an entry on which [os.Lstat] fails. *)

Inductive node : Type :=
| File (name : string)
| Dir (name : string) (entries : list node)
| DirUnreadable (name : string) (msg : string)
| NoStat (name : string) (msg : string).

Definition nodeName (n : node) : string :=
  match n with
  | File name | Dir name _ | DirUnreadable name _ | NoStat name _ => name
  end.

Definition nodeIsDir (n : node) : bool :=
  match n with
  | Dir _ _ | DirUnreadable _ _ => true
  | File _ | NoStat _ _ => false
  end.

(** [os.FileInfo], as far as the program reads it. *)
Record FileInfo : Type := {
  Name : string;
  IsDir : bool
}.

Definition lstat (n : node) : FileInfo :=
  {| Name := nodeName n; IsDir := nodeIsDir n |}.

(** The three shapes of a call [walkFn(path, info, err)] that [Walk] makes:
    with an [info] and no error, or with an error and an [info] that is
    [nil] when [Lstat] itself failed. *)
Inductive walkArg : Type :=
| Visit (info : FileInfo)
| VisitErr (info : option FileInfo) (err : error).

(** A [filepath.WalkFunc] closing over a mutable variable of type [S]. *)
Definition WalkFunc (S : Type) : Type :=
  S -> string -> walkArg -> S * option error.

(** [sort.Strings] on the entries of a directory, by insertion. *)
Fixpoint insertByName (n : node) (l : list node) : list node :=
  match l with
  | [] => [n]
  | m :: l' =>
      if String.leb (nodeName n) (nodeName m) then n :: l
      else m :: insertByName n l'
  end.

Definition sortByName (l : list node) : list node :=
  fold_right insertByName [] l.

Fixpoint readDir (n : node) : node :=
  match n with
  | Dir name entries => Dir name (sortByName (map readDir entries))
  | _ => n
  end.

Section Walk.

Variable S : Type.
Variable GOOS : string.
Variable walkFn : WalkFunc S.

(** [for _, name := range names { ... }] of [filepath.walk], the
    recursive call being [descend].  An error of the callback on an entry
    without [Lstat] ends the listing unless it is [SkipDir]; an error of the
    recursive call ends the listing unless it is [SkipDir] coming from a
    directory.  So [SkipDir] returned for a file ends the listing of the
    directory that holds it, and one level up it only skips that
    directory. *)
Definition rangeNames (descend : string -> node -> S -> S * option error)
  (path : string) : list node -> S -> S * option error :=
  fix range (names : list node) (st : S) {struct names} :=
    match names with
    | [] => (st, None)
    | e :: rest =>
        let filename := Join GOOS path (nodeName e) in
        match e with
        | NoStat _ msg =>
            let (st', err) :=
              walkFn st filename (VisitErr None (sysError msg)) in
            match err with
            | Some er =>
                if is_SkipDir er then range rest st' else (st', Some er)
            | None => range rest st'
            end
        | _ =>
            let (st', err) := descend filename e st in
            match err with
            | Some er =>
                if negb (nodeIsDir e) || negb (is_SkipDir er)
                then (st', Some er)
                else range rest st'
            | None => range rest st'
            end
        end
    end.

(** [filepath.walk], on a tree whose listings are already sorted. *)
Fixpoint walk (path : string) (n : node) (st : S) {struct n}
  : S * option error :=
  match n with
  | File _ => walkFn st path (Visit (lstat n))
  | NoStat _ msg => walkFn st path (VisitErr None (sysError msg))
  | DirUnreadable _ msg =>
      walkFn st path (VisitErr (Some (lstat n)) (sysError msg))
  | Dir _ names =>
      let (st1, err1) := walkFn st path (Visit (lstat n)) in
      match err1 with
      | Some _ => (st1, err1)
      | None =>
          rangeNames (fun filename e st => walk filename e st)
                     path names st1
      end
  end.

(** [filepath.Walk(root, walkFn)], [tree] being what lies at [root]. *)
Definition Walk (root : string) (tree : node) (st : S) : S * option error :=
  let (st', err) :=
    match tree with
    | NoStat _ msg => walkFn st root (VisitErr None (sysError msg))
    | _ => walk root (readDir tree) st
    end in
  match err with
  | Some e => if is_SkipDir e || is_SkipAll e then (st', None) else (st', err)
  | None => (st', None)
  end.

End Walk.

(** The function literal passed to [Walk]; the state is [goModPath]. *)
Definition findGoMod_func : WalkFunc string :=
  fun goModPath path arg =>
    match arg with
    | VisitErr _ err => (goModPath, Some err)
    | Visit info =>
        if negb (IsDir info) && (Name info =? "go.mod")
        then (path, Some SkipDir)
        else (goModPath, None)
    end.

Definition findGoMod (GOOS : string) (tree : node) (dir : string)
  : string * option error :=
  let (goModPath, err) := Walk GOOS findGoMod_func dir tree "" in
  if goModPath =? "" then
    ("", Some (errorString ("could not find go.mod in " ++ dir)))
  else (goModPath, err).

(** The visiting order of a full depth-first traversal of a readable tree
    (no entry skipped): the paths of the files named [go.mod], in the order
    the traversal meets them. *)
Fixpoint manifests (GOOS : string) (path : string) (n : node) : list string :=
  match n with
  | File name => if name =? "go.mod" then [path] else []
  | Dir _ names =>
      flat_map (fun e => manifests GOOS (Join GOOS path (nodeName e)) e) names
  | DirUnreadable _ _ | NoStat _ _ => []
  end.

(** ** [parseGoMod]

    [modfile.File], as far as the program reads it: [modFile.Module] and
    [modFile.Go] are pointers, [nil] when the directive is absent. *)

Record ModuleDirective : Type := { Mod_Path : string }.
Record GoDirective : Type := { Go_Version : string }.

Record ModFile : Type := {
  File_Module : option ModuleDirective;
  File_Go : option GoDirective
}.

Definition emptyModFile : ModFile :=
  {| File_Module := None; File_Go := None |}.

(** [os.ReadFile] and [modfile.Parse(file, data, nil)] are given by the
    environment. *)
Definition ReadFileT : Type := string -> string * option error.
Definition ParseT : Type := string -> string -> ModFile * option error.

Definition parseGoMod (ReadFile : ReadFileT) (Parse : ParseT)
  (goModPath : string) : string * string * option error :=
  let (data, err) := ReadFile goModPath in
  match err with
  | Some e => ("", "", Some (Errorf "error reading go.mod: " e))
  | None =>
      let data := ReplaceAll data CRLF LF in
      let (modFile, err) := Parse goModPath data in
      match err with
      | Some e => ("", "", Some (Errorf "error parsing go.mod: " e))
      | None =>
          match File_Module modFile with
          | None => ("", "", Some (errorString "module declaration not found"))
          | Some module =>
              let goVersion :=
                match File_Go modFile with
                | Some go => Go_Version go
                | None => "unknown"
                end in
              (Mod_Path module, goVersion, None)
          end
      end
  end.

(** The CRLF form of a text: every line feed becomes carriage return, line
    feed. *)
Definition toCRLF (t : string) : string := ReplaceAll t LF CRLF.

(** A line-oriented reader of the two directives the program uses, standing
    for [modfile.Parse] where a concrete parser is needed: a line
    [module <path>] and a line [go <version>]; a carriage return ending a
    line is kept in the token, as a parser that knows only LF would. *)
Fixpoint splitLines (s : string) (cur : string) : list string :=
  match s with
  | EmptyString => [cur]
  | String c s' =>
      if Ascii.eqb c "010"%char then cur :: splitLines s' ""
      else splitLines s' (cur ++ String c "")
  end.

Definition afterPrefix (p line : string) : option string :=
  if prefix p line
  then Some (substring (length p) (length line - length p) line)
  else None.

Fixpoint firstSome (A : Type) (f : string -> option A) (l : list string)
  : option A :=
  match l with
  | [] => None
  | x :: l' => match f x with Some a => Some a | None => firstSome f l' end
  end.

Definition lineParse : ParseT :=
  fun _ data =>
    let ls := splitLines data "" in
    ({| File_Module :=
          option_map (fun p => {| Mod_Path := p |})
                     (firstSome (afterPrefix "module ") ls);
        File_Go :=
          option_map (fun v => {| Go_Version := v |})
                     (firstSome (afterPrefix "go ") ls) |}, None).

(** ** [printResults]

    Standard output is the string written so far; [fmt.Printf] with [%s]
    verbs and [fmt.Println] append to it. *)

Definition Println (s : string) (stdout : string) : string :=
  stdout ++ s ++ LF.

(** [for _, dep := range deps { ... }] *)
Fixpoint printDeps (deps : list ModuleInfo) (stdout : string) : string :=
  match deps with
  | [] => stdout
  | dep :: rest =>
      match Update dep with
      | Some u =>
          printDeps rest
            (stdout ++ "- " ++ Path dep ++ ": " ++ Version dep ++ " -> "
                    ++ Update_Version u ++ LF)
      | None => printDeps rest stdout
      end
  end.

Definition printResults (moduleName goVersion : string)
  (deps : list ModuleInfo) (stdout : string) : string :=
  let stdout := stdout ++ "Module: " ++ moduleName ++ LF in
  let stdout := stdout ++ "Go Module Version: " ++ goVersion ++ LF in
  if (0 <? List.length deps)%nat then
    printDeps deps (Println "Dependencies that can be updated:" stdout)
  else Println "All dependencies are up to date." stdout.

(** What the specification says is written, as a list of lines. *)
Definition depLine (m : ModuleInfo) : string :=
  match Update m with
  | Some u =>
      "- " ++ Path m ++ ": " ++ Version m ++ " -> " ++ Update_Version u
  | None => ""
  end.

Definition spec_lines (moduleName goVersion : string)
  (deps : list ModuleInfo) : list string :=
  ([("Module: " ++ moduleName)%string;
    ("Go Module Version: " ++ goVersion)%string] ++
   match deps with
   | [] => ["All dependencies are up to date."]
   | _ :: _ =>
       "Dependencies that can be updated:" :: map depLine (filter hasUpdate deps)
   end)%list.

(** The text of a list of lines, each ended by a line feed. *)
Fixpoint unlines (ls : list string) : string :=
  match ls with
  | [] => ""
  | l :: ls' => l ++ LF ++ unlines ls'
  end.

(** ** [createTempDir]

    The directories of the machine: [lookupDir] gives the names of the
    entries of a directory, [None] where there is none; [mkdirDenied] makes
    every creation of a missing directory fail with the given message. *)

Record FS : Type := {
  lookupDir : string -> option (list string);
  mkdirDenied : option string
}.

Definition addDir (fs : FS) (path : string) : FS :=
  {| lookupDir := fun p => if p =? path then Some [] else lookupDir fs p;
     mkdirDenied := mkdirDenied fs |}.

Definition ErrExist : error := sysError "file exists".

(** [os.IsExist] *)
Definition IsExist (e : error) : bool :=
  match e with
  | sysError msg => msg =? "file exists"
  | _ => false
  end.

(** [os.Mkdir] *)
Definition Mkdir (fs : FS) (name : string) : FS * option error :=
  match lookupDir fs name with
  | Some _ => (fs, Some ErrExist)
  | None =>
      match mkdirDenied fs with
      | Some msg => (fs, Some (sysError msg))
      | None => (addDir fs name, None)
      end
  end.

(** [os.MkdirAll], the parent being there: an existing directory is left as
    it is. *)
Definition MkdirAll (fs : FS) (path : string) : FS * option error :=
  match lookupDir fs path with
  | Some _ => (fs, None)
  | None => Mkdir fs path
  end.

(** The loop of [os.MkdirTemp] for a pattern without [*]: the candidate is
    the prefix followed by the next random string, and a candidate that
    exists is passed over, at most 10000 times. *)
Fixpoint MkdirTemp_loop (fs : FS) (prefix : string) (nextRandom : nat -> string)
  (try : nat) (tries : nat) : string * FS * option error :=
  match tries with
  | O => ("", fs, Some ErrExist)
  | S tries' =>
      let name := prefix ++ nextRandom try in
      match Mkdir fs name with
      | (fs', None) => (name, fs', None)
      | (_, Some e) =>
          if IsExist e
          then MkdirTemp_loop fs prefix nextRandom (S try) tries'
          else ("", fs, Some e)
      end
  end.

Definition maxTries : nat := 100 * 100.

(** [os.MkdirTemp("", pattern)] *)
Definition MkdirTemp (GOOS TempDir : string) (nextRandom : nat -> string)
  (fs : FS) (pattern : string) : string * FS * option error :=
  MkdirTemp_loop fs (Join GOOS TempDir pattern) nextRandom 0 maxTries.

Definition createTempDir (GOOS TempDir : string) (nextRandom : nat -> string)
  (fs : FS) : string * FS * option error :=
  if GOOS =? "windows" then
    let tempDir := Join GOOS TempDir "go-dep-analysis" in
    match MkdirAll fs tempDir with
    | (fs', Some e) =>
        ("", fs', Some (Errorf "error creating temporary directory: " e))
    | (fs', None) => (tempDir, fs', None)
    end
  else MkdirTemp GOOS TempDir nextRandom fs "go-dep-analysis".

(** ** The process: [main], [defer], [log.Fatalf] and [os.Exit]

    A run of the program is a state transformer over [proc] that either is
    still running or has left through [os.Exit].  [os.Exit] ends the process
    at once: the functions deferred so far are not run.  [log.Fatalf] writes
    its message and calls [os.Exit(1)].  A deferred function literal is kept
    as data ([deferredCall]) and run when the surrounding function
    returns. *)

Inductive syscall : Type :=
| sysRun (argv : list string)      (* exec.Cmd.Run *)
| sysRemoveAll (path : string)     (* os.RemoveAll *)
| sysSleep (ms : nat).             (* time.Sleep *)

Inductive deferredCall : Type :=
| deferCleanup (tempDir : string).

Record proc : Type := {
  stdout : string;
  logged : list string;            (* messages of log.Fatalf *)
  calls : list syscall;            (* in the order made *)
  deferred : list deferredCall     (* last deferred first *)
}.

Definition start : proc :=
  {| stdout := ""; logged := []; calls := []; deferred := [] |}.

Inductive status (A : Type) : Type :=
| Running (a : A)
| Exited (code : nat).

Arguments Exited {A} code.

Definition M (A : Type) : Type := proc -> status A * proc.

Definition ret (A : Type) (a : A) : M A := fun p => (Running a, p).

Definition bind (A B : Type) (m : M A) (k : A -> M B) : M B :=
  fun p =>
    match m p with
    | (Running a, p') => k a p'
    | (Exited code, p') => (Exited code, p')
    end.

Notation "x <- m ;; k" := (bind m (fun x => k))
  (at level 61, m at next level, right associativity).
Notation "m ;;; k" := (bind m (fun _ => k))
  (at level 61, right associativity).

Definition os_Exit {A : Type} (code : nat) : M A := fun p => (Exited code, p).

Definition write (f : string -> string) : M unit :=
  fun p => (Running tt,
            {| stdout := f (stdout p); logged := logged p;
               calls := calls p; deferred := deferred p |}).

Definition log_Fatalf {A : Type} (msg : string) : M A :=
  fun p => (Exited 1,
            {| stdout := stdout p; logged := (logged p ++ [msg])%list;
               calls := calls p; deferred := deferred p |}).

Definition call (c : syscall) : M unit :=
  fun p => (Running tt,
            {| stdout := stdout p; logged := logged p;
               calls := (calls p ++ [c])%list; deferred := deferred p |}).

Definition defer (d : deferredCall) : M unit :=
  fun p => (Running tt,
            {| stdout := stdout p; logged := logged p;
               calls := calls p; deferred := d :: deferred p |}).

Definition isRemoveAll (c : syscall) : bool :=
  match c with sysRemoveAll _ => true | _ => false end.

(** What lies outside the process. *)
Record World : Type := {
  GOOS : string;                         (* runtime.GOOS *)
  Args : list string;                    (* os.Args *)
  TempDir : string;                      (* os.TempDir() *)
  nextRandom : nat -> string;
  fs0 : FS;
  Run_err : list string -> option error; (* error of cmd.Run, by command line *)
  treeAt : string -> node;               (* what Walk finds at a path *)
  ReadFile : ReadFileT;
  Parse : ParseT;
  listing : ListingEnv;
  RemoveAll_err : nat -> option error    (* error of the n-th call of os.RemoveAll *)
}.

Section Process.

Variable w : World.

Definition os_RemoveAll (path : string) : M (option error) :=
  fun p =>
    let n := List.length (filter isRemoveAll (calls p)) in
    (call (sysRemoveAll path) ;;; ret (RemoveAll_err w n)) p.

(** [for i := 0; i < 3; i++ { ... }], counted down. *)
Fixpoint cleanupAttempts (dir : string) (left : nat) : M (option error) :=
  match left with
  | O => ret (Some (errorString
                      "error removing temporary directory after 3 attempts"))
  | S left' =>
      err <- os_RemoveAll dir ;;
      match err with
      | None => ret None
      | Some _ => call (sysSleep 200) ;;; cleanupAttempts dir left'
      end
  end.

Definition cleanupTempDir (dir : string) : M (option error) :=
  if GOOS w =? "windows" then cleanupAttempts dir 3
  else os_RemoveAll dir.

Definition cloneRepo (url dir : string) : M (option error) :=
  let cmd :=
    if GOOS w =? "windows" then ["cmd"; "/C"; "git"; "clone"; url; dir]
    else ["git"; "clone"; url; dir] in
  call (sysRun cmd) ;;;
  match Run_err w cmd with
  | Some e => ret (Some (Errorf "error cloning repository: " e))
  | None => ret None
  end.

(** The function literal deferred by [main]. *)
Definition runDeferred (d : deferredCall) : M unit :=
  match d with
  | deferCleanup tempDir =>
      err <- cleanupTempDir tempDir ;;
      match err with
      | Some e =>
          log_Fatalf ("Error cleaning up temporary directory: " ++ Error e)
      | None => ret tt
      end
  end.

Fixpoint runAllDeferred (ds : list deferredCall) : M unit :=
  match ds with
  | [] => ret tt
  | d :: ds' => runDeferred d ;;; runAllDeferred ds'
  end.

(** A function body that returns runs what it deferred; one that left
    through [os.Exit] does not. *)
Definition function (body : M unit) : M unit :=
  fun p =>
    match body p with
    | (Running tt, p') => runAllDeferred (deferred p') p'
    | (Exited code, p') => (Exited code, p')
    end.

Definition main_body : M unit :=
  if (List.length (Args w) <? 2)%nat then
    write (Println "Usage: go run main.go <git-repo-url>") ;;;
    os_Exit 1
  else
    let repoURL := nth 1 (Args w) "" in
    let '(tempDir, _, err) :=
      createTempDir (GOOS w) (TempDir w) (nextRandom w) (fs0 w) in
    match err with
    | Some e =>
        log_Fatalf ("Error creating temporary directory: " ++ Error e)
    | None =>
        defer (deferCleanup tempDir) ;;;
        err <- cloneRepo repoURL tempDir ;;
        match err with
        | Some e => log_Fatalf ("Error cloning repository: " ++ Error e)
        | None =>
            let (goMopPath, err) :=
              findGoMod (GOOS w) (treeAt w tempDir) tempDir in
            match err with
            | Some e => log_Fatalf ("Error finding go.mod: " ++ Error e)
            | None =>
                let '(moduleName, goVersion, err) :=
                  parseGoMod (ReadFile w) (Parse w) goMopPath in
                match err with
                | Some e => log_Fatalf ("Error parsing go.mod: " ++ Error e)
                | None =>
                    let (deps, err) :=
                      getDependencies (GOOS w) (listing w) tempDir in
                    match err with
                    | Some e =>
                        log_Fatalf
                          ("Error getting dependencies: " ++ Error e)
                    | None =>
                        write (printResults moduleName goVersion deps)
                    end
                end
            end
        end
    end.

(** The run of the program from a fresh process. *)
Definition main : status unit * proc := function main_body start.

End Process.

(** The release of the workspace [dir] was attempted during the run. *)
Definition released (dir : string) (p : proc) : bool :=
  existsb (fun c => match c with
                    | sysRemoveAll path => path =? dir
                    | _ => false
                    end) (calls p).

(** ** The earlier revision *)

Module Legacy.

(** [getDependencies] keeps a record exactly when its [Update] is set. *)
Fixpoint decodeLoop (dec : Decoder) (deps : list ModuleInfo)
  : list ModuleInfo * option error :=
  match dec with
  | [] => (deps, None)
  | inr e :: _ => ([], Some e)
  | inl m :: dec' =>
      match Update m with
      | Some _ => decodeLoop dec' (deps ++ [m])
      | None => decodeLoop dec' deps
      end
  end.

Definition getDependencies (go_list : string -> Decoder * option error)
  (dir : string) : list ModuleInfo * option error :=
  let (out, err) := go_list dir in
  match err with
  | Some e => ([], Some e)
  | None => decodeLoop out []
  end.

(** [findGoMod] tests the error of the walk first. *)
Definition findGoMod (GOOS : string) (tree : node) (dir : string)
  : string * option error :=
  let (goModPath, err) := Walk GOOS findGoMod_func dir tree "" in
  match err with
  | Some e => ("", Some e)
  | None =>
      if goModPath =? "" then ("", Some (errorString "could not find go.mod"))
      else (goModPath, None)
  end.

(** [parseGoMod] reads [modFile.Go.Version] without testing [modFile.Go]:
    a nil pointer there is a run-time panic, [None] here. *)
Definition parseGoMod (ReadFile : ReadFileT) (Parse : ParseT)
  (goModPath : string) : option (string * string * option error) :=
  let (data, err) := ReadFile goModPath in
  match err with
  | Some e => Some ("", "", Some (Errorf "error reading go.mod: " e))
  | None =>
      let (modFile, err) := Parse goModPath data in
      match err with
      | Some e => Some ("", "", Some (Errorf "error parsing go.mod: " e))
      | None =>
          match File_Module modFile with
          | None => Some ("", "", Some (errorString "could not find go.mod"))
          | Some module =>
              match File_Go modFile with
              | Some go => Some (Mod_Path module, Go_Version go, None)
              | None => None
              end
          end
      end
  end.

End Legacy.

(** What the specification asks of an acquired workspace: off Windows a
    directory that is new, empty and named after the pattern under the
    temporary root; on Windows the fixed directory under that root, which is
    there afterwards and left untouched when it was there before. *)
Definition spec_acquired (os tmp : string) (fs : FS) (path : string) (fs' : FS)
  : Prop :=
  if os =? "windows" then
    path = Join os tmp "go-dep-analysis"
    /\ (exists names, lookupDir fs' path = Some names)
    /\ (forall names, lookupDir fs path = Some names -> fs' = fs)
  else
    lookupDir fs path = None
    /\ lookupDir fs' path = Some []
    /\ HasPrefix path (Join os tmp "go-dep-analysis") = true
    /\ fs' = addDir fs path.

(** The state [st'] left by a walk started in state [st] is [st] itself or
    one of the paths [ms]. *)
Definition found (st st' : string) (ms : list string) : Prop :=
  st' = st \/ In st' ms.

(** ** Inputs used in the examples *)

Definition listingOf (out : Decoder) : ListingEnv :=
  {| LookPath_go := None; go_list := fun _ => (out, None) |}.

(** A module that is up to date, as [go list -m -u -json all] reports it. *)
Definition upToDate : ModuleInfo :=
  {| Path := "example.com/bar"; Version := "v1.0.0"; Update := None |}.

Definition fileWith (data : string) : ReadFileT := fun _ => (data, None).

Definition manifestNoGo : string := "module example.com/foo" ++ LF.

Definition manifestNoModule : string := "go 1.21" ++ LF.

Definition manifestFull : string :=
  "module example.com/foo" ++ LF ++ "go 1.21" ++ LF.

(** A checkout with a manifest in each of two subdirectories. *)
Definition twoModules : node :=
  Dir "ws" [Dir "a" [File "go.mod"; File "main.go"];
            Dir "b" [File "go.mod"]].

(** A checkout whose first subdirectory cannot be listed. *)
Definition unreadable : node :=
  Dir "ws" [DirUnreadable "a" "permission denied"; File "main.go"].

Definition emptyFS : FS := {| lookupDir := fun _ => None; mkdirDenied := None |}.

(** A run on a repository URL that cannot be cloned. *)
Definition cloneFails : World :=
  {| GOOS := "linux";
     Args := ["main"; "https://example.com/missing.git"];
     TempDir := "/tmp";
     nextRandom := fun _ => "123";
     fs0 := emptyFS;
     Run_err := fun _ => Some (sysError "exit status 128");
     treeAt := fun _ => Dir "go-dep-analysis123" [];
     ReadFile := fileWith "";
     Parse := lineParse;
     listing := listingOf [];
     RemoveAll_err := fun _ => None |}.

(** The same run with a clone that succeeds and a checkout that holds a
    manifest: the output is written and the workspace removed. *)
Definition allSucceeds : World :=
  {| GOOS := "linux";
     Args := ["main"; "https://example.com/foo.git"];
     TempDir := "/tmp";
     nextRandom := fun _ => "123";
     fs0 := emptyFS;
     Run_err := fun _ => None;
     treeAt := fun _ => Dir "go-dep-analysis123" [File "go.mod"];
     ReadFile := fileWith manifestFull;
     Parse := lineParse;
     listing := listingOf [];
     RemoveAll_err := fun _ => None |}.

(** A tree in which every directory can be listed and every entry
    examined. *)
Fixpoint readable (n : node) : bool :=
  match n with
  | File _ => true
  | Dir _ entries => forallb readable entries
  | DirUnreadable _ _ | NoStat _ _ => false
  end.

(** The outcome of a walk that met no error: [nil] or [SkipDir]. *)
Definition quiet (r : string * option error) : Prop :=
  snd r = None \/ snd r = Some SkipDir.

(** A module for which an update is on offer. *)
Definition outdated : ModuleInfo :=
  {| Path := "example.com/bar"; Version := "v1.0.0";
     Update := Some {| Update_Path := "example.com/bar";
                       Update_Version := "v1.2.0" |} |}.

(** The main module as listed from inside the workspace, under a relative
    path. *)
Definition relative : ModuleInfo :=
  {| Path := "./local"; Version := ""; Update := None |}.

(** A Windows machine on which the first two removals of a directory fail,
    as while file handles are still being closed. *)
Definition windowsRetry : World :=
  {| GOOS := "windows";
     Args := ["main"; "https://example.com/foo.git"];
     TempDir := "C:\Temp";
     nextRandom := fun _ => "123";
     fs0 := emptyFS;
     Run_err := fun _ => None;
     treeAt := fun _ => Dir "go-dep-analysis" [File "go.mod"];
     ReadFile := fileWith manifestFull;
     Parse := lineParse;
     listing := listingOf [inl outdated];
     RemoveAll_err := fun n => if (n <? 2)%nat
                               then Some (sysError "Access is denied.")
                               else None |}.

(** The command line that [cloneRepo] runs. *)
Definition gitCloneArgs (os url dir : string) : list string :=
  if os =? "windows" then ["cmd"; "/C"; "git"; "clone"; url; dir]
  else ["git"; "clone"; url; dir].


(** ** The run of the earlier revision

    The earlier [main] creates the workspace with [os.MkdirTemp] on every
    platform, defers a function literal that removes it, and calls the
    earlier [findGoMod], [parseGoMod] and [getDependencies].  Its
    [parseGoMod] can panic; a panic runs the deferred functions and then
    ends the process with status 2. *)

Module LegacyRun.

Inductive outcome : Type :=
| returned
| panicked (msg : string).

Definition nilDereference : string :=
  "runtime error: invalid memory address or nil pointer dereference".

Section Process.

Variable w : World.

Definition cloneRepo (url dir : string) : M (option error) :=
  let cmd := ["git"; "clone"; url; dir] in
  call (sysRun cmd) ;;; ret (Run_err w cmd).

(** The function literal deferred by [main], applied to the workspace. *)
Definition runDeferred (d : deferredCall) : M unit :=
  match d with
  | deferCleanup path =>
      err <- os_RemoveAll w path ;;
      match err with
      | Some e => log_Fatalf ("Error removing temporary directory: " ++ Error e)
      | None => ret tt
      end
  end.

Fixpoint runAllDeferred (ds : list deferredCall) : M unit :=
  match ds with
  | [] => ret tt
  | d :: ds' => runDeferred d ;;; runAllDeferred ds'
  end.

Definition crash (msg : string) : M unit :=
  fun p => (Exited 2,
            {| stdout := stdout p;
               logged := (logged p ++ [("panic: " ++ msg)%string])%list;
               calls := calls p; deferred := deferred p |}).

(** A function body that returns or panics runs what it deferred; after a
    panic the process then ends with status 2. *)
Definition function (body : M outcome) : M unit :=
  fun p =>
    match body p with
    | (Running returned, p') => runAllDeferred (deferred p') p'
    | (Running (panicked msg), p') =>
        (runAllDeferred (deferred p') ;;; crash msg) p'
    | (Exited code, p') => (Exited code, p')
    end.

Definition main_body : M outcome :=
  if (List.length (Args w) <? 2)%nat then
    write (Println "Usage: go run main.go <git-repo-url>") ;;;
    os_Exit 1
  else
    let repoURL := nth 1 (Args w) "" in
    let '(temDir, _, err) :=
      MkdirTemp (GOOS w) (TempDir w) (nextRandom w) (fs0 w)
                "go-dep-analysis" in
    match err with
    | Some e => log_Fatalf ("Error creating temporary directory: " ++ Error e)
    | None =>
        defer (deferCleanup temDir) ;;;
        err <- cloneRepo repoURL temDir ;;
        match err with
        | Some e => log_Fatalf ("Error cloning repository: " ++ Error e)
        | None =>
            let (goModPath, err) :=
              Legacy.findGoMod (GOOS w) (treeAt w temDir) temDir in
            match err with
            | Some e => log_Fatalf ("Error finding go.mod: " ++ Error e)
            | None =>
                match Legacy.parseGoMod (ReadFile w) (Parse w) goModPath with
                | None => ret (panicked nilDereference)
                | Some (moduleName, goVersion, err) =>
                    match err with
                    | Some e =>
                        log_Fatalf ("Error parsing go.mod: " ++ Error e)
                    | None =>
                        let (deps, err) :=
                          Legacy.getDependencies (go_list (listing w)) temDir in
                        match err with
                        | Some e =>
                            log_Fatalf
                              ("Error getting dependencies: " ++ Error e)
                        | None =>
                            write (printResults moduleName goVersion deps) ;;;
                            ret returned
                        end
                    end
                end
            end
        end
    end.

Definition main : status unit * proc := function main_body start.

End Process.

End LegacyRun.


(** * Properties *)

(** ** Strings *)

Lemma append_nil_r (s : string) : s ++ "" = s.
Proof. induction s as [|c s IH]; simpl; [reflexivity | now rewrite IH]. Qed.

Lemma append_assoc (s t u : string) : (s ++ t) ++ u = s ++ (t ++ u).
Proof. induction s as [|c s IH]; simpl; [reflexivity | now rewrite IH]. Qed.

(** ** The dependency reporter *)

Section Reporter.

Variables (os dir : string).

Lemma decodeLoop_keepPath (ms deps : list ModuleInfo) :
  decodeLoop os dir (map inl ms) deps =
  ((deps ++ filter (keepPath os dir) ms)%list, None).
Proof.
  revert deps; induction ms as [|m ms IH]; intros deps; simpl.
  - now rewrite app_nil_r.
  - destruct (keepPath os dir m); rewrite IH; [|reflexivity].
    now rewrite <- app_assoc.
Qed.

(** Once the command is found and has run, the current revision returns
    the records whose path passes [keepPath], in stream order, whether
    they carry an update or not. *)
Lemma getDependencies_keepPath (env : ListingEnv) (ms : list ModuleInfo) :
  LookPath_go env = None ->
  go_list env dir = (map inl ms, None) ->
  getDependencies os env dir = (filter (keepPath os dir) ms, None).
Proof.
  intros Hlook Hrun. unfold getDependencies.
  rewrite Hlook, Hrun. apply decodeLoop_keepPath.
Qed.

Lemma Legacy_decodeLoop_hasUpdate (ms deps : list ModuleInfo) :
  Legacy.decodeLoop (map inl ms) deps =
  ((deps ++ filter hasUpdate ms)%list, None).
Proof.
  revert deps; induction ms as [|m ms IH]; intros deps; simpl.
  - now rewrite app_nil_r.
  - unfold hasUpdate at 1. destruct (Update m); rewrite IH; [|reflexivity].
    now rewrite <- app_assoc.
Qed.

(** The earlier revision returns the records that carry an update. *)
Lemma Legacy_getDependencies_hasUpdate
  (run : string -> Decoder * option error) (ms : list ModuleInfo) :
  run dir = (map inl ms, None) ->
  Legacy.getDependencies run dir = (filter hasUpdate ms, None).
Proof.
  intros Hrun. unfold Legacy.getDependencies. rewrite Hrun.
  apply Legacy_decodeLoop_hasUpdate.
Qed.

End Reporter.

(** C1: a record is to be kept if and only if its update is present and its
    path is external.  On the stream holding the one record [upToDate], which
    has no update, the current [getDependencies] returns that record, where
    the rule of the specification keeps nothing (and the earlier revision
    returns nothing). *)
Theorem getDependencies_keeps_record_without_update :
  let dir := "/tmp/go-dep-analysis123" in
  getDependencies "linux" (listingOf [inl upToDate]) dir = ([upToDate], None)
  /\ filter (spec_retained "linux" dir) [upToDate] = []
  /\ Legacy.getDependencies (fun _ => ([inl upToDate], None)) dir = ([], None).
Proof. repeat split. Qed.

(** C10: with the command found, the run successful and nothing on its
    standard output, [getDependencies] returns no record and no error. *)
Theorem getDependencies_empty_output :
  forall (os dir : string) (env : ListingEnv),
    LookPath_go env = None ->
    go_list env dir = ([], None) ->
    getDependencies os env dir = ([], None).
Proof.
  intros os dir env Hlook Hrun. unfold getDependencies.
  now rewrite Hlook, Hrun.
Qed.

Lemma getDependencies_empty_output_witness :
  LookPath_go (listingOf []) = None
  /\ go_list (listingOf []) "/tmp/ws" = ([], None)
  /\ getDependencies "linux" (listingOf []) "/tmp/ws" = ([], None).
Proof.
  split; [reflexivity|]. split; [reflexivity|].
  apply getDependencies_empty_output; reflexivity.
Defined.

(** ** The result printer *)

Lemma printDeps_unlines (deps : list ModuleInfo) (out : string) :
  printDeps deps out = out ++ unlines (map depLine (filter hasUpdate deps)).
Proof.
  revert out; induction deps as [|dep deps IH]; intros out; simpl.
  - now rewrite append_nil_r.
  - unfold hasUpdate at 1.
    destruct (Update dep) as [u|] eqn:Hu; rewrite IH; [|reflexivity].
    assert (Hd : depLine dep =
                 "- " ++ Path dep ++ ": " ++ Version dep ++ " -> "
                      ++ Update_Version u)
      by (unfold depLine; now rewrite Hu).
    simpl. rewrite Hd. unfold LF.
    repeat (rewrite !append_assoc; simpl). reflexivity.
Qed.

(** C8: [printResults] writes the module line and the version line; then,
    for a non-empty [deps], the header line and one line
    [- path: version -> newVersion] for each record that has an update, in
    order, the others being skipped; for an empty [deps], the single line
    [All dependencies are up to date.] *)
Theorem printResults_lines :
  forall (moduleName goVersion : string) (deps : list ModuleInfo),
    printResults moduleName goVersion deps "" =
    unlines (spec_lines moduleName goVersion deps).
Proof.
  intros m v deps. unfold printResults, spec_lines, Println.
  destruct deps as [|dep deps].
  - simpl. unfold LF. repeat (rewrite !append_assoc; simpl). reflexivity.
  - change (0 <? List.length (dep :: deps))%nat with true. cbv iota.
    rewrite printDeps_unlines.
    cbn [app unlines append]. unfold LF.
    repeat (rewrite !append_assoc; simpl). reflexivity.
Qed.

(** The number of lines written: two, then one, then one for each record
    that has an update. *)
Lemma spec_lines_length (m v : string) (deps : list ModuleInfo) :
  List.length (spec_lines m v deps) = 3 + List.length (filter hasUpdate deps).
Proof.
  unfold spec_lines. destruct deps as [|dep deps]; [reflexivity|].
  cbn [app List.length]. now rewrite length_map.
Qed.

(** ** The manifest parser *)

(** *** Line endings *)

Lemma prefix_nil (s : string) : prefix "" s = true.
Proof. now destruct s. Qed.

Lemma prefix_LF_cons (c : ascii) (t : string) :
  prefix LF (String c t) = Ascii.eqb c "010"%char.
Proof.
  unfold LF. cbn [prefix]. rewrite prefix_nil.
  destruct (ascii_dec "010"%char c) as [<-|Hc]; [reflexivity|].
  destruct (Ascii.eqb_spec c "010"%char) as [->|_]; [congruence|reflexivity].
Qed.

Lemma toCRLF_cons (c : ascii) (t : string) :
  toCRLF (String c t) =
  if Ascii.eqb c "010"%char then CRLF ++ toCRLF t else String c (toCRLF t).
Proof.
  unfold toCRLF, ReplaceAll. cbn [replaceFrom].
  rewrite prefix_LF_cons. reflexivity.
Qed.

(** The CRLF form of a text never begins with a bare line feed. *)
Lemma toCRLF_no_leading_LF (t : string) : prefix LF (toCRLF t) = false.
Proof.
  destruct t as [|c t]; [reflexivity|].
  rewrite toCRLF_cons.
  destruct (Ascii.eqb_spec c "010"%char) as [->|Hc]; [reflexivity|].
  rewrite prefix_LF_cons. now apply Ascii.eqb_neq.
Qed.

Lemma replace_CRLF_cons (c : ascii) (s : string) :
  prefix CRLF (String c s) = false ->
  ReplaceAll (String c s) CRLF LF = String c (ReplaceAll s CRLF LF).
Proof.
  intros H. unfold ReplaceAll. cbn [replaceFrom]. now rewrite H.
Qed.

Lemma replace_CRLF_pair (s : string) :
  ReplaceAll (CRLF ++ s) CRLF LF = LF ++ ReplaceAll s CRLF LF.
Proof.
  unfold ReplaceAll, CRLF, CR, LF. cbn [append replaceFrom prefix length].
  destruct (ascii_dec "013"%char "013"%char) as [_|H]; [|congruence].
  destruct (ascii_dec "010"%char "010"%char) as [_|H]; [|congruence].
  rewrite prefix_nil. reflexivity.
Qed.

(** Normalising the CRLF form of a text gives the text back. *)
Lemma ReplaceAll_toCRLF (t : string) : ReplaceAll (toCRLF t) CRLF LF = t.
Proof.
  induction t as [|c t IH]; [reflexivity|].
  rewrite toCRLF_cons.
  destruct (Ascii.eqb_spec c "010"%char) as [->|Hc].
  - rewrite replace_CRLF_pair, IH. reflexivity.
  - rewrite replace_CRLF_cons, IH; [reflexivity|].
    unfold CRLF, CR, LF. cbn [append prefix].
    destruct (ascii_dec "013"%char c) as [_|_]; [|reflexivity].
    pose proof (toCRLF_no_leading_LF t) as Hn.
    destruct (toCRLF t) as [|d u]; [reflexivity|].
    rewrite prefix_LF_cons in Hn. cbn [prefix].
    destruct (ascii_dec "010"%char d) as [<-|_]; [discriminate Hn|reflexivity].
Qed.

(** A text without CRLF is left as it is. *)
Lemma ReplaceAll_LF_only (t : string) :
  Contains t CRLF = false -> ReplaceAll t CRLF LF = t.
Proof.
  induction t as [|c t IH]; intros H; [reflexivity|].
  cbn [Contains] in H. apply orb_false_iff in H as [Hp Ht].
  rewrite replace_CRLF_cons by exact Hp. now rewrite IH.
Qed.

Section Parser.

Variable Parse : ParseT.
Variable goModPath : string.

(** C4: a manifest that is read and parsed, with a module directive and no
    go directive, gives the module path, the version ["unknown"] and no
    error. *)
Theorem parseGoMod_unknown_version :
  forall (ReadFile : ReadFileT) (data : string) (module : ModuleDirective),
    ReadFile goModPath = (data, None) ->
    Parse goModPath (ReplaceAll data CRLF LF) =
      ({| File_Module := Some module; File_Go := None |}, None) ->
    parseGoMod ReadFile Parse goModPath = (Mod_Path module, "unknown", None).
Proof.
  intros ReadFile data module Hread Hparse.
  unfold parseGoMod. rewrite Hread, Hparse. reflexivity.
Qed.

(** C6: a manifest that is read and parsed and has no module directive
    gives the error [module declaration not found], with empty results. *)
Theorem parseGoMod_missing_module :
  forall (ReadFile : ReadFileT) (data : string) (modFile : ModFile),
    ReadFile goModPath = (data, None) ->
    Parse goModPath (ReplaceAll data CRLF LF) = (modFile, None) ->
    File_Module modFile = None ->
    parseGoMod ReadFile Parse goModPath =
      ("", "", Some (errorString "module declaration not found")).
Proof.
  intros ReadFile data modFile Hread Hparse Hmod.
  unfold parseGoMod. rewrite Hread, Hparse, Hmod. reflexivity.
Qed.

(** The parser is handed the normalised text. *)
Lemma parseGoMod_normalises (ReadFile ReadFile' : ReadFileT)
  (data data' : string) :
  ReadFile goModPath = (data, None) ->
  ReadFile' goModPath = (data', None) ->
  ReplaceAll data CRLF LF = ReplaceAll data' CRLF LF ->
  parseGoMod ReadFile Parse goModPath = parseGoMod ReadFile' Parse goModPath.
Proof.
  intros H H' Heq. unfold parseGoMod. now rewrite H, H', Heq.
Qed.

(** C5: for a text [t] with LF line endings, the manifest holding the CRLF
    form of [t] and the manifest holding [t] parse to the same result. *)
Theorem parseGoMod_CRLF_as_LF :
  forall (ReadCRLF ReadLF : ReadFileT) (t : string),
    Contains t CRLF = false ->
    ReadCRLF goModPath = (toCRLF t, None) ->
    ReadLF goModPath = (t, None) ->
    parseGoMod ReadCRLF Parse goModPath = parseGoMod ReadLF Parse goModPath.
Proof.
  intros ReadCRLF ReadLF t Hlf Hc Hl.
  apply parseGoMod_normalises with (data := toCRLF t) (data' := t);
    try assumption.
  now rewrite ReplaceAll_toCRLF, ReplaceAll_LF_only.
Qed.


End Parser.

Lemma parseGoMod_unknown_version_witness :
  parseGoMod (fileWith manifestNoGo) lineParse "go.mod" =
  ("example.com/foo", "unknown", None).
Proof.
  apply (@parseGoMod_unknown_version lineParse "go.mod"
           (fileWith manifestNoGo) manifestNoGo
           {| Mod_Path := "example.com/foo" |}); reflexivity.
Defined.

Lemma parseGoMod_missing_module_witness :
  parseGoMod (fileWith manifestNoModule) lineParse "go.mod" =
  ("", "", Some (errorString "module declaration not found")).
Proof.
  apply (@parseGoMod_missing_module lineParse "go.mod"
           (fileWith manifestNoModule) manifestNoModule
           {| File_Module := None;
              File_Go := Some {| Go_Version := "1.21" |} |}); reflexivity.
Defined.

Lemma parseGoMod_CRLF_as_LF_witness :
  Contains manifestFull CRLF = false
  /\ parseGoMod (fileWith (toCRLF manifestFull)) lineParse "go.mod" =
     parseGoMod (fileWith manifestFull) lineParse "go.mod".
Proof.
  split; [reflexivity|].
  apply (@parseGoMod_CRLF_as_LF lineParse "go.mod"
           (fileWith (toCRLF manifestFull)) (fileWith manifestFull)
           manifestFull); reflexivity.
Defined.

(** Without the normalisation, as in the earlier revision, a parser that
    knows only LF sees the carriage return in the CRLF form. *)
Example Legacy_parseGoMod_CRLF_differs :
  Legacy.parseGoMod (fileWith (toCRLF manifestFull)) lineParse "go.mod" =
    Some ("example.com/foo" ++ CR, "1.21" ++ CR, None)
  /\ Legacy.parseGoMod (fileWith manifestFull) lineParse "go.mod" =
    Some ("example.com/foo", "1.21", None).
Proof. split; reflexivity. Qed.

(** The manifest [module example.com/foo / go 1.21] gives the identity
    [example.com/foo], [1.21], in both forms. *)
Example parseGoMod_scenario :
  parseGoMod (fileWith manifestFull) lineParse "go.mod" =
    ("example.com/foo", "1.21", None)
  /\ parseGoMod (fileWith (toCRLF manifestFull)) lineParse "go.mod" =
    ("example.com/foo", "1.21", None).
Proof. split; reflexivity. Qed.

(** ** The manifest locator *)

(** Induction on trees, with the hypothesis for every entry of a
    directory. *)
Lemma node_nested_ind (P : node -> Prop) :
  (forall name, P (File name)) ->
  (forall name entries, Forall P entries -> P (Dir name entries)) ->
  (forall name msg, P (DirUnreadable name msg)) ->
  (forall name msg, P (NoStat name msg)) ->
  forall n, P n.
Proof.
  intros HF HD HU HN. fix IH 1. intros [name|name entries|name msg|name msg].
  - apply HF.
  - apply HD. induction entries as [|e entries IHe]; constructor.
    + apply IH.
    + exact IHe.
  - apply HU.
  - apply HN.
Qed.

Section Locator.

Variable os : string.

(** The variable [goModPath] is only ever set to the path of a file named
    [go.mod] of the tree walked. *)
Lemma walk_findGoMod_found (n : node) :
  forall (path st : string),
    found st (fst (walk os findGoMod_func path n st)) (manifests os path n).
Proof.
  induction n as [name|name entries IH|name msg|name msg]
    using node_nested_ind; intros path st; unfold found in *.
  - cbn. destruct (name =? "go.mod"); cbn; auto.
  - cbn [walk findGoMod_func lstat nodeIsDir IsDir negb andb manifests].
    revert st. induction IH as [|e rest He _ IHrest]; intros st.
    + left; reflexivity.
    + cbn [rangeNames flat_map].
      assert (Hstep : forall st1 : string,
                 st1 = st \/
                 In st1 (manifests os (Join os path (nodeName e)) e) ->
                 fst (rangeNames os findGoMod_func
                        (fun filename e st => walk os findGoMod_func filename e st)
                        path rest st1) = st \/
                 In (fst (rangeNames os findGoMod_func
                        (fun filename e st => walk os findGoMod_func filename e st)
                        path rest st1))
                    (manifests os (Join os path (nodeName e)) e ++
                     flat_map (fun e0 => manifests os (Join os path (nodeName e0)) e0)
                              rest)%list).
      { intros st1 H1. destruct (IHrest st1) as [H|H].
        - rewrite H. destruct H1 as [H1|H1]; [now left|].
          right. apply in_or_app. now left.
        - right. apply in_or_app. now right. }
      assert (Hstop : forall st1 : string,
                 st1 = st \/
                 In st1 (manifests os (Join os path (nodeName e)) e) ->
                 st1 = st \/
                 In st1
                    (manifests os (Join os path (nodeName e)) e ++
                     flat_map (fun e0 => manifests os (Join os path (nodeName e0)) e0)
                              rest)%list).
      { intros st1 [H1|H1]; [now left|]. right. apply in_or_app. now left. }
      specialize (He (Join os path (nodeName e)) st).
      destruct e as [ename|ename es|ename emsg|ename emsg].
      * destruct (walk os findGoMod_func (Join os path (nodeName (File ename)))
                    (File ename) st) as [st1 [er|]]; cbn [fst] in He.
        -- cbn [nodeIsDir negb orb]. now apply Hstop.
        -- now apply Hstep.
      * destruct (walk os findGoMod_func
                    (Join os path (nodeName (Dir ename es)))
                    (Dir ename es) st) as [st1 [er|]]; cbn [fst] in He.
        -- cbn [nodeIsDir negb orb].
           destruct (is_SkipDir er); cbn [negb];
             [now apply Hstep | now apply Hstop].
        -- now apply Hstep.
      * destruct (walk os findGoMod_func
                    (Join os path (nodeName (DirUnreadable ename emsg)))
                    (DirUnreadable ename emsg) st) as [st1 [er|]];
          cbn [fst] in He.
        -- cbn [nodeIsDir negb orb].
           destruct (is_SkipDir er); cbn [negb];
             [now apply Hstep | now apply Hstop].
        -- now apply Hstep.
      * cbn [findGoMod_func is_SkipDir fst]. left; reflexivity.
  - left; reflexivity.
  - left; reflexivity.
Qed.

Lemma Walk_findGoMod_found (tree : node) (dir : string) :
  found "" (fst (Walk os findGoMod_func dir tree ""))
        (manifests os dir (readDir tree)).
Proof.
  unfold Walk.
  assert (H : found ""
                (fst (match tree with
                      | NoStat _ msg =>
                          findGoMod_func "" dir (VisitErr None (sysError msg))
                      | _ => walk os findGoMod_func dir (readDir tree) ""
                      end))
                (manifests os dir (readDir tree))).
  { destruct tree; try apply walk_findGoMod_found. left; reflexivity. }
  destruct (match tree with
            | NoStat _ msg =>
                findGoMod_func "" dir (VisitErr None (sysError msg))
            | _ => walk os findGoMod_func dir (readDir tree) ""
            end) as [st' [e|]]; cbn [fst] in *; [|exact H].
  destruct (is_SkipDir e || is_SkipAll e); exact H.
Qed.

(** A path returned by [findGoMod] is the path of a file named [go.mod] in
    the tree. *)
Lemma findGoMod_sound (tree : node) (dir : string) :
  fst (findGoMod os tree dir) = "" \/
  In (fst (findGoMod os tree dir)) (manifests os dir (readDir tree)).
Proof.
  unfold findGoMod. pose proof (Walk_findGoMod_found tree dir) as H.
  destruct (Walk os findGoMod_func dir tree "") as [p err]; cbn [fst] in H.
  destruct (String.eqb_spec p "") as [->|Hp]; [now left|].
  destruct H as [H|H]; [congruence|now right].
Qed.

(** A tree without a file named [go.mod] gives the not-found error. *)
Lemma findGoMod_no_manifest (tree : node) (dir : string) :
  manifests os dir (readDir tree) = [] ->
  findGoMod os tree dir =
    ("", Some (errorString ("could not find go.mod in " ++ dir))).
Proof.
  intros Hnone. unfold findGoMod.
  pose proof (Walk_findGoMod_found tree dir) as H. rewrite Hnone in H.
  destruct (Walk os findGoMod_func dir tree "") as [p err]; cbn [fst] in H.
  destruct H as [->|[]]. reflexivity.
Qed.

(** An error of the walk met before any match is replaced by the not-found
    error in the current revision; the earlier revision returns it. *)
Lemma findGoMod_masks_walk_error (tree : node) (dir : string) (e : error) :
  Walk os findGoMod_func dir tree "" = ("", Some e) ->
  findGoMod os tree dir =
    ("", Some (errorString ("could not find go.mod in " ++ dir))).
Proof. intros H. unfold findGoMod. now rewrite H. Qed.

Lemma Legacy_findGoMod_walk_error (tree : node) (dir p : string) (e : error) :
  Walk os findGoMod_func dir tree "" = (p, Some e) ->
  Legacy.findGoMod os tree dir = ("", Some e).
Proof. intros H. unfold Legacy.findGoMod. now rewrite H. Qed.

End Locator.

(** C3: the first manifest of the traversal is to be returned, a later one
    never replacing it.  In [twoModules] the traversal meets [a/go.mod]
    before [b/go.mod]; [findGoMod] returns [b/go.mod]: [SkipDir] ends the
    listing of [a] only, and the assignment to [goModPath] is repeated at
    the next match. *)
Theorem findGoMod_later_match_replaces_first :
  manifests "linux" "/tmp/ws" (readDir twoModules) =
    ["/tmp/ws/a/go.mod"; "/tmp/ws/b/go.mod"]
  /\ findGoMod "linux" twoModules "/tmp/ws" = ("/tmp/ws/b/go.mod", None).
Proof. split; reflexivity. Qed.

(** C7: an error of the traversal is to be returned as such.  On
    [unreadable] the walk stops with [permission denied]; the current
    [findGoMod] tests [goModPath] first and returns the not-found error,
    where the earlier revision returns the error of the walk. *)
Theorem findGoMod_walk_error_reported_as_not_found :
  Walk "linux" findGoMod_func "/tmp/ws" unreadable "" =
    ("", Some (sysError "permission denied"))
  /\ findGoMod "linux" unreadable "/tmp/ws" =
    ("", Some (errorString "could not find go.mod in /tmp/ws"))
  /\ Legacy.findGoMod "linux" unreadable "/tmp/ws" =
    ("", Some (sysError "permission denied")).
Proof. repeat split. Qed.

(** ** The run of the program *)

Lemma released_app (dir : string) (p : proc) (cs : list syscall) (out : string)
  (ls : list string) (ds : list deferredCall) :
  released dir {| stdout := out; logged := ls;
                  calls := (calls p ++ sysRemoveAll dir :: cs)%list;
                  deferred := ds |} = true.
Proof.
  unfold released. cbn [calls]. rewrite existsb_app. cbn [existsb].
  rewrite String.eqb_refl. now rewrite orb_true_r.
Qed.

Section Run.

Variable w : World.

(** The deferred function attempts the removal, whatever its outcome. *)
Lemma runDeferred_releases (dir : string) (p : proc) :
  released dir (snd (runDeferred w (deferCleanup dir) p)) = true.
Proof.
  unfold runDeferred, cleanupTempDir.
  destruct (GOOS w =? "windows").
  - unfold cleanupAttempts, os_RemoveAll, bind, call, ret, log_Fatalf.
    cbn [calls stdout logged deferred snd].
    repeat match goal with
           | |- context [RemoveAll_err w ?n] =>
               destruct (RemoveAll_err w n); cbn [calls stdout logged deferred snd]
           end;
      rewrite <- ?app_assoc; cbn [app]; apply released_app.
  - unfold os_RemoveAll, bind, call, ret, log_Fatalf.
    cbn [calls stdout logged deferred snd].
    destruct (RemoveAll_err w _); cbn [snd]; apply (released_app dir p []).
Qed.

Lemma bind_snd_runDeferred (d : deferredCall) (p : proc) :
  snd (runAllDeferred w [d] p) = snd (runDeferred w d p).
Proof.
  cbn [runAllDeferred]. unfold bind, ret.
  now destruct (runDeferred w d p) as [[u|code] p'].
Qed.

(** The body of [main] never removes the workspace itself, and when it
    returns exactly one call is deferred. *)
Lemma main_body_shape :
  filter isRemoveAll (calls (snd (main_body w start))) = []
  /\ (forall u, fst (main_body w start) = Running u ->
      exists dir, deferred (snd (main_body w start)) = [deferCleanup dir]).
Proof.
  unfold main_body.
  destruct (List.length (Args w) <? 2)%nat.
  { split; [reflexivity|]. intros u H. discriminate H. }
  destruct (createTempDir (GOOS w) (TempDir w) (nextRandom w) (fs0 w))
    as [[tempDir fs'] [e|]].
  { split; [reflexivity|]. intros u H. discriminate H. }
  unfold cloneRepo, bind, defer, call, ret, start.
  cbn [calls stdout logged deferred app].
  destruct (Run_err w _) as [e|].
  { split; [reflexivity|]. intros u H. discriminate H. }
  destruct (findGoMod (GOOS w) (treeAt w tempDir) tempDir) as [goMopPath [e|]].
  { split; [reflexivity|]. intros u H. discriminate H. }
  destruct (parseGoMod (ReadFile w) (Parse w) goMopPath)
    as [[moduleName goVersion] [e|]].
  { split; [reflexivity|]. intros u H. discriminate H. }
  destruct (getDependencies (GOOS w) (listing w) tempDir) as [deps [e|]].
  { split; [reflexivity|]. intros u H. discriminate H. }
  split; [reflexivity|]. intros u _. now exists tempDir.
Qed.

Lemma no_removal_not_released (dir : string) (p : proc) :
  filter isRemoveAll (calls p) = [] -> released dir p = false.
Proof.
  unfold released. induction (calls p) as [|c cs IH]; [reflexivity|].
  cbn [filter existsb]. destruct c; cbn [isRemoveAll]; try exact IH.
  discriminate.
Qed.

(** A run that leaves through [os.Exit] inside the body of [main] (every
    [log.Fatalf] and the usage exit) ends there: the deferred removal is
    not run. *)
Lemma main_exit_skips_release (code : nat) (p : proc) :
  main_body w start = (Exited code, p) ->
  main w = (Exited code, p) /\ forall dir, released dir p = false.
Proof.
  intros H. split.
  - unfold main, function. now rewrite H.
  - intros dir. apply no_removal_not_released.
    pose proof main_body_shape as [Hc _]. now rewrite H in Hc.
Qed.

(** A run whose body returns removes the workspace. *)
Lemma main_return_releases (p : proc) :
  main_body w start = (Running tt, p) ->
  exists dir, deferred p = [deferCleanup dir]
              /\ released dir (snd (main w)) = true.
Proof.
  intros H. pose proof main_body_shape as [_ Hd].
  destruct (Hd tt) as [dir Hdir]; [now rewrite H|].
  rewrite H in Hdir. cbn [snd] in Hdir. exists dir. split; [exact Hdir|].
  unfold main, function. rewrite H, Hdir.
  rewrite bind_snd_runDeferred. apply runDeferred_releases.
Qed.

End Run.

(** C2: once the workspace is acquired its removal is to run on every way
    out.  In the run [cloneFails] the workspace [/tmp/go-dep-analysis123] is
    created and the removal deferred; the clone fails, [log.Fatalf] leaves
    through [os.Exit(1)], and the process ends with the removal still
    deferred and never attempted. *)
Theorem main_fatal_exit_leaves_workspace :
  createTempDir (GOOS cloneFails) (TempDir cloneFails) (nextRandom cloneFails)
                (fs0 cloneFails)
    = ("/tmp/go-dep-analysis123", addDir emptyFS "/tmp/go-dep-analysis123", None)
  /\ main cloneFails =
     (Exited 1,
      {| stdout := "";
         logged := ["Error cloning repository: error cloning repository: exit status 128"];
         calls := [sysRun ["git"; "clone"; "https://example.com/missing.git";
                           "/tmp/go-dep-analysis123"]];
         deferred := [deferCleanup "/tmp/go-dep-analysis123"] |})
  /\ released "/tmp/go-dep-analysis123" (snd (main cloneFails)) = false.
Proof. repeat split. Qed.

Example main_normal_completion :
  main allSucceeds =
    (Running tt,
     {| stdout := unlines ["Module: example.com/foo";
                           "Go Module Version: 1.21";
                           "All dependencies are up to date."];
        logged := [];
        calls := [sysRun ["git"; "clone"; "https://example.com/foo.git";
                          "/tmp/go-dep-analysis123"];
                  sysRemoveAll "/tmp/go-dep-analysis123"];
        deferred := [deferCleanup "/tmp/go-dep-analysis123"] |}).
Proof. reflexivity. Qed.

(** ** The workspace *)

Lemma prefix_append (p s : string) : prefix p (p ++ s) = true.
Proof.
  induction p as [|c p IH]; cbn [append prefix]; [apply prefix_nil|].
  destruct (ascii_dec c c); [exact IH|congruence].
Qed.

Lemma Mkdir_ok (fs fs' : FS) (name : string) :
  Mkdir fs name = (fs', None) ->
  lookupDir fs name = None /\ fs' = addDir fs name.
Proof.
  unfold Mkdir. destruct (lookupDir fs name); [discriminate|].
  destruct (mkdirDenied fs); [discriminate|].
  intros H; injection H as <-. now split.
Qed.

Lemma Mkdir_fails (fs fs' : FS) (name : string) (e : error) :
  Mkdir fs name = (fs', Some e) -> fs' = fs.
Proof.
  unfold Mkdir. destruct (lookupDir fs name).
  - now intros H; injection H as <- _.
  - destruct (mkdirDenied fs); [|discriminate].
    now intros H; injection H as <- _.
Qed.

Lemma Mkdir_denied (fs : FS) (name : string) :
  mkdirDenied fs <> None -> snd (Mkdir fs name) <> None.
Proof.
  unfold Mkdir. intros Hd. destruct (lookupDir fs name); [discriminate|].
  destruct (mkdirDenied fs); [discriminate|congruence].
Qed.

Lemma addDir_lookup (fs : FS) (path : string) :
  lookupDir (addDir fs path) path = Some [].
Proof. cbn. now rewrite String.eqb_refl. Qed.

Section MkdirTemp.

Variables (fs : FS) (pre : string) (rnd : nat -> string).

(** A directory made by the loop is a candidate that did not exist. *)
Lemma MkdirTemp_loop_ok (tries try : nat) (path : string) (fs' : FS) :
  MkdirTemp_loop fs pre rnd try tries = (path, fs', None) ->
  (exists k, path = pre ++ rnd k)
  /\ lookupDir fs path = None /\ fs' = addDir fs path.
Proof.
  revert try. induction tries as [|tries IH]; intros try; cbn [MkdirTemp_loop].
  - discriminate.
  - destruct (Mkdir fs (pre ++ rnd try)) as [fs1 [e|]] eqn:Hmk.
    + destruct (IsExist e); [apply IH|discriminate].
    + intros H; injection H as <- <-.
      apply Mkdir_ok in Hmk as [Hnew ->]. split; [now exists try|now split].
Qed.

Lemma MkdirTemp_loop_fails (tries try : nat) (path : string) (fs' : FS)
  (e : error) :
  MkdirTemp_loop fs pre rnd try tries = (path, fs', Some e) ->
  path = "" /\ fs' = fs.
Proof.
  revert try. induction tries as [|tries IH]; intros try; cbn [MkdirTemp_loop].
  - intros H; injection H as <- <- _. now split.
  - destruct (Mkdir fs (pre ++ rnd try)) as [fs1 [e1|]] eqn:Hmk.
    + destruct (IsExist e1); [apply IH|].
      intros H; injection H as <- <- _. now split.
    + discriminate.
Qed.

Lemma MkdirTemp_loop_denied (tries try : nat) :
  mkdirDenied fs <> None ->
  snd (MkdirTemp_loop fs pre rnd try tries) <> None.
Proof.
  intros Hd. revert try.
  induction tries as [|tries IH]; intros try; cbn [MkdirTemp_loop].
  - discriminate.
  - pose proof (@Mkdir_denied fs (pre ++ rnd try) Hd) as Hm.
    destruct (Mkdir fs (pre ++ rnd try)) as [fs1 [e1|]]; [|now elim Hm].
    destruct (IsExist e1); [apply IH|discriminate].
Qed.

End MkdirTemp.

(** C9: [createTempDir] either fails, with the empty path and the
    directories untouched, or returns a directory that exists afterwards:
    off Windows one that did not exist before, is empty and whose name
    extends [TempDir/go-dep-analysis]; on Windows the fixed directory
    [TempDir\go-dep-analysis], left as it is when it exists already.  It
    fails when directories cannot be created (on Windows, when the fixed
    directory is not there yet). *)
Theorem createTempDir_acquires :
  forall (os tmp : string) (rnd : nat -> string) (fs fs' : FS)
         (path : string) (err : option error),
    createTempDir os tmp rnd fs = (path, fs', err) ->
    match err with
    | None => spec_acquired os tmp fs path fs'
    | Some _ => path = "" /\ fs' = fs
    end
    /\ (mkdirDenied fs <> None ->
        (os = "windows" ->
         lookupDir fs (Join os tmp "go-dep-analysis") = None) ->
        err <> None).
Proof.
  intros os tmp rnd fs fs' path err. unfold createTempDir, spec_acquired.
  destruct (String.eqb_spec os "windows") as [Hos|Hos].
  - unfold MkdirAll.
    destruct (lookupDir fs (Join os tmp "go-dep-analysis")) as [names|] eqn:Hl.
    + intros H; injection H as <- <- <-. split.
      * split; [reflexivity|]. split; [now exists names|now intros _ _].
      * intros _ Hn. now specialize (Hn Hos).
    + destruct (Mkdir fs (Join os tmp "go-dep-analysis")) as [fs1 [e|]] eqn:Hmk;
        intros H; injection H as <- <- <-.
      * split; [|discriminate]. split; [reflexivity|].
        now apply Mkdir_fails in Hmk.
      * pose proof Hmk as Hmk'. apply Mkdir_ok in Hmk as [_ ->]. split.
        -- split; [reflexivity|]. split.
           ++ exists []. apply addDir_lookup.
           ++ intros names Hn. congruence.
        -- intros Hd _.
           pose proof (@Mkdir_denied fs (Join os tmp "go-dep-analysis") Hd) as Hm.
           now rewrite Hmk' in Hm.
  - unfold MkdirTemp. intros H. destruct err as [e|].
    + split; [|discriminate]. now apply MkdirTemp_loop_fails in H.
    + split.
      * apply MkdirTemp_loop_ok in H as [[k ->] [Hnew ->]].
        split; [exact Hnew|]. split; [apply addDir_lookup|].
        split; [apply prefix_append|reflexivity].
      * intros Hd _.
        pose proof (@MkdirTemp_loop_denied fs (Join os tmp "go-dep-analysis")
                      rnd maxTries 0 Hd) as Hm.
        now rewrite H in Hm.
Qed.

Lemma createTempDir_acquires_witness :
  spec_acquired "linux" "/tmp" emptyFS "/tmp/go-dep-analysis123"
                (addDir emptyFS "/tmp/go-dep-analysis123").
Proof.
  apply (@createTempDir_acquires "linux" "/tmp" (fun _ => "123") emptyFS
           (addDir emptyFS "/tmp/go-dep-analysis123")
           "/tmp/go-dep-analysis123" None).
  reflexivity.
Defined.

(** On Windows the workspace is the same directory in every run: when a
    previous run has left it behind with its contents, it is returned as it
    is. *)
Example createTempDir_windows_reuses :
  let fs := {| lookupDir := fun p =>
                 if p =? "C:\Temp\go-dep-analysis" then Some [".git"; "go.mod"]
                 else None;
               mkdirDenied := None |} in
  createTempDir "windows" "C:\Temp" (fun _ => "123") fs =
    ("C:\Temp\go-dep-analysis", fs, None).
Proof. reflexivity. Qed.


(** * Further properties of the code *)

(** ** The dependency reporter *)

Lemma decodeLoop_kept (os dir : string) (dec : Decoder) :
  forall deps : list ModuleInfo,
    Forall (fun m => keepPath os dir m = true) deps ->
    Forall (fun m => keepPath os dir m = true)
           (fst (decodeLoop os dir dec deps)).
Proof.
  induction dec as [|[m|e] dec IH]; intros deps Hdeps; cbn [decodeLoop].
  - exact Hdeps.
  - destruct (keepPath os dir m) eqn:Hm; apply IH; [|exact Hdeps].
    apply Forall_app. split; [exact Hdeps|]. now constructor.
  - constructor.
Qed.

(** Whatever the environment answers, every record [getDependencies]
    returns has a path that, with forward slashes, starts with neither [.]
    nor [/] and does not contain the workspace path. *)
Theorem getDependencies_only_kept_paths :
  forall (os dir : string) (env : ListingEnv),
    Forall (fun m => keepPath os dir m = true)
           (fst (getDependencies os env dir)).
Proof.
  intros os dir env. unfold getDependencies.
  destruct (LookPath_go env); [constructor|].
  destruct (go_list env dir) as [out [e|]]; [constructor|].
  apply decodeLoop_kept. constructor.
Qed.

Lemma decodeLoop_error (os dir : string) (e : error) (rest : Decoder)
  (ms : list ModuleInfo) :
  forall deps : list ModuleInfo,
    decodeLoop os dir (map inl ms ++ inr e :: rest)%list deps =
    ([], Some (Errorf "error decoding dependencies: " e)).
Proof.
  induction ms as [|m ms IH]; intros deps; cbn [map app decodeLoop].
  - reflexivity.
  - destruct (keepPath os dir m); apply IH.
Qed.

(** A value that fails to decode fails the whole listing: the records
    decoded before it are dropped, the values after it are not looked at,
    and the error is wrapped as [error decoding dependencies]. *)
Theorem getDependencies_decode_error :
  forall (os dir : string) (env : ListingEnv) (ms : list ModuleInfo)
         (e : error) (rest : Decoder),
    LookPath_go env = None ->
    go_list env dir = ((map inl ms ++ inr e :: rest)%list, None) ->
    getDependencies os env dir =
      ([], Some (Errorf "error decoding dependencies: " e)).
Proof.
  intros os dir env ms e rest Hlook Hrun. unfold getDependencies.
  rewrite Hlook, Hrun. apply decodeLoop_error.
Qed.

Lemma getDependencies_decode_error_witness :
  getDependencies "linux"
    (listingOf [inl outdated; inr (sysError "unexpected EOF"); inl upToDate])
    "/tmp/ws" =
  ([], Some (errorString "error decoding dependencies: unexpected EOF")).
Proof.
  apply (@getDependencies_decode_error "linux" "/tmp/ws"
           (listingOf [inl outdated; inr (sysError "unexpected EOF");
                       inl upToDate])
           [outdated] (sysError "unexpected EOF") [inl upToDate]);
    reflexivity.
Defined.

Lemma getDependencies_keepPath_witness :
  getDependencies "linux"
    (listingOf (map inl [relative; outdated; upToDate])) "/tmp/ws" =
  ([outdated; upToDate], None).
Proof.
  apply (@getDependencies_keepPath "linux" "/tmp/ws"
           (listingOf (map inl [relative; outdated; upToDate]))
           [relative; outdated; upToDate]); reflexivity.
Defined.

Lemma Legacy_getDependencies_hasUpdate_witness :
  Legacy.getDependencies
    (fun _ => (map inl [relative; outdated; upToDate], None)) "/tmp/ws" =
  ([outdated], None).
Proof.
  apply (@Legacy_getDependencies_hasUpdate "/tmp/ws"
           (fun _ => (map inl [relative; outdated; upToDate], None))
           [relative; outdated; upToDate]); reflexivity.
Defined.

Lemma Contains_empty (s : string) : Contains s "" = true.
Proof. destruct s; reflexivity. Qed.

Lemma ToSlash_empty (os : string) : ToSlash os "" = "".
Proof. unfold ToSlash. now destruct (Separator os =? "/"). Qed.

(** With the empty string as workspace path no record is ever returned:
    every path contains the empty string. *)
Theorem getDependencies_empty_dir :
  forall (os : string) (env : ListingEnv), fst (getDependencies os env "") = [].
Proof.
  intros os env.
  assert (H : Forall (fun m => keepPath os "" m = true)
                     (fst (getDependencies os env ""))).
  { unfold getDependencies. destruct (LookPath_go env); [constructor|].
    destruct (go_list env "") as [out [e|]]; [constructor|].
    apply decodeLoop_kept. constructor. }
  destruct (fst (getDependencies os env "")) as [|m l]; [reflexivity|].
  inversion H as [|? ? Hm _]; subst. unfold keepPath in Hm.
  rewrite ToSlash_empty, Contains_empty in Hm.
  now rewrite !andb_false_r in Hm.
Qed.

(** ** The result printer *)


(** For a non-empty list in which no record has an update, the header line
    is written and nothing after it; the line [All dependencies are up to
    date.] is written for the empty list only. *)
Theorem printResults_header_without_updates :
  forall (moduleName goVersion : string) (deps : list ModuleInfo),
    deps <> [] ->
    filter hasUpdate deps = [] ->
    printResults moduleName goVersion deps "" =
    unlines ["Module: " ++ moduleName;
             "Go Module Version: " ++ goVersion;
             "Dependencies that can be updated:"].
Proof.
  intros m v deps Hne Hnone. unfold printResults, Println.
  destruct deps as [|dep deps]; [congruence|].
  change (0 <? List.length (dep :: deps))%nat with true. cbv iota.
  rewrite printDeps_unlines, Hnone. cbn [map unlines]. unfold LF.
  repeat (rewrite !append_assoc; simpl). reflexivity.
Qed.

Lemma printResults_header_without_updates_witness :
  printResults "example.com/foo" "1.21" [upToDate] "" =
  unlines ["Module: example.com/foo"; "Go Module Version: 1.21";
           "Dependencies that can be updated:"].
Proof.
  apply (@printResults_header_without_updates "example.com/foo" "1.21"
           [upToDate]); [discriminate|reflexivity].
Defined.

Lemma filter_hasUpdate_keepPath (os dir : string) (ms : list ModuleInfo) :
  filter hasUpdate (filter (keepPath os dir) ms) =
  filter (spec_retained os dir) ms.
Proof.
  induction ms as [|m ms IH]; [reflexivity|]. unfold spec_retained.
  cbn [filter]. destruct (keepPath os dir m), (hasUpdate m) eqn:Hu;
    cbn [filter andb]; rewrite ?Hu, IH; reflexivity.
Qed.

(** [getDependencies] followed by [printResults]: when at least one record
    passes the path test, the dependency lines written are those of the
    records that pass it and have an update, in stream order. *)
Theorem printed_dependencies :
  forall (os dir : string) (env : ListingEnv) (ms : list ModuleInfo)
         (moduleName goVersion : string),
    LookPath_go env = None ->
    go_list env dir = (map inl ms, None) ->
    filter (keepPath os dir) ms <> [] ->
    printResults moduleName goVersion (fst (getDependencies os env dir)) "" =
    unlines ([("Module: " ++ moduleName)%string;
              ("Go Module Version: " ++ goVersion)%string;
              "Dependencies that can be updated:"] ++
             map depLine (filter (spec_retained os dir) ms))%list.
Proof.
  intros os dir env ms m v Hlook Hrun Hne.
  unfold getDependencies. rewrite Hlook, Hrun, decodeLoop_keepPath.
  cbn [fst app]. unfold printResults, Println.
  destruct (filter (keepPath os dir) ms) as [|dep deps] eqn:Hf; [congruence|].
  change (0 <? List.length (dep :: deps))%nat with true. cbv iota.
  rewrite printDeps_unlines, <- Hf, filter_hasUpdate_keepPath.
  cbn [unlines app]. unfold LF.
  repeat (rewrite !append_assoc; simpl). reflexivity.
Qed.

Lemma printed_dependencies_witness :
  printResults "example.com/foo" "1.21"
    (fst (getDependencies "linux"
            (listingOf (map inl [relative; outdated; upToDate])) "/tmp/ws")) "" =
  unlines ["Module: example.com/foo"; "Go Module Version: 1.21";
           "Dependencies that can be updated:";
           "- example.com/bar: v1.0.0 -> v1.2.0"].
Proof.
  apply (@printed_dependencies "linux" "/tmp/ws"
           (listingOf (map inl [relative; outdated; upToDate]))
           [relative; outdated; upToDate] "example.com/foo" "1.21");
    [reflexivity|reflexivity|discriminate].
Defined.

(** ** The manifest locator *)

(** With no error, the path returned is not empty and is the path of a file
    named [go.mod] in the tree. *)
Theorem findGoMod_returns_manifest :
  forall (os : string) (tree : node) (dir p : string),
    findGoMod os tree dir = (p, None) ->
    p <> "" /\ In p (manifests os dir (readDir tree)).
Proof.
  intros os tree dir p. unfold findGoMod.
  pose proof (Walk_findGoMod_found os tree dir) as H. unfold found in H.
  destruct (Walk os findGoMod_func dir tree "") as [q err]; cbn [fst] in H.
  destruct (String.eqb_spec q "") as [->|Hq]; [discriminate|].
  intros Heq; injection Heq as <- _. split; [exact Hq|].
  destruct H as [H|H]; [congruence|exact H].
Qed.

Lemma findGoMod_returns_manifest_witness :
  "/tmp/ws/b/go.mod" <> ""
  /\ In "/tmp/ws/b/go.mod" (manifests "linux" "/tmp/ws" (readDir twoModules)).
Proof.
  apply (@findGoMod_returns_manifest "linux" twoModules "/tmp/ws"
           "/tmp/ws/b/go.mod").
  reflexivity.
Defined.

Lemma findGoMod_no_manifest_witness :
  findGoMod "linux" (Dir "ws" [File "README.md"; Dir "cmd" [File "main.go"]])
            "/tmp/ws" =
  ("", Some (errorString "could not find go.mod in /tmp/ws")).
Proof.
  apply (@findGoMod_no_manifest "linux"
           (Dir "ws" [File "README.md"; Dir "cmd" [File "main.go"]]) "/tmp/ws").
  reflexivity.
Defined.

(** *** Sorted listings *)

Lemma In_insertByName (x n : node) (l : list node) :
  In x (insertByName n l) <-> x = n \/ In x l.
Proof.
  induction l as [|m l IH]; cbn [insertByName].
  - cbn. intuition congruence.
  - destruct (String.leb (nodeName n) (nodeName m)); cbn [In].
    + intuition congruence.
    + rewrite IH. intuition congruence.
Qed.

Lemma In_sortByName (x : node) (l : list node) :
  In x (sortByName l) <-> In x l.
Proof.
  unfold sortByName. induction l as [|n l IH]; cbn [fold_right In].
  - reflexivity.
  - rewrite In_insertByName, IH. intuition congruence.
Qed.

Lemma readable_readDir (n : node) :
  readable n = true -> readable (readDir n) = true.
Proof.
  induction n as [name|name entries IH|name msg|name msg]
    using node_nested_ind; cbn [readDir readable]; intros H; try exact H.
  apply forallb_forall. intros x Hx.
  apply In_sortByName, in_map_iff in Hx as [y [<- Hy]].
  rewrite Forall_forall in IH. apply IH; [exact Hy|].
  rewrite forallb_forall in H. now apply H.
Qed.

(** *** The walk of a readable tree *)

Section ReadableWalk.

Variable os : string.

(** In a readable tree the callback only ever answers [nil] or [SkipDir]. *)
Lemma walk_readable_quiet (n : node) :
  readable n = true ->
  forall path st : string, quiet (walk os findGoMod_func path n st).
Proof.
  induction n as [name|name entries IH|name msg|name msg]
    using node_nested_ind; cbn [readable]; intros Hr path st;
    try discriminate.
  - cbn. destruct (name =? "go.mod"); [right|left]; reflexivity.
  - cbn [walk findGoMod_func lstat nodeIsDir IsDir negb andb].
    revert Hr st.
    induction IH as [|e rest He _ IHrest]; intros Hr st;
      [left; reflexivity|].
    cbn [forallb] in Hr. apply andb_true_iff in Hr as [Hre Hrrest].
    specialize (IHrest Hrrest). specialize (He Hre).
    cbn [rangeNames].
    destruct e as [ename|ename es|ename emsg|ename emsg];
      try discriminate Hre.
    + specialize (He (Join os path (nodeName (File ename))) st).
      destruct (walk os findGoMod_func (Join os path (nodeName (File ename)))
                  (File ename) st) as [st1 [er|]].
      * cbn [nodeIsDir negb orb]. exact He.
      * apply IHrest.
    + specialize (He (Join os path (nodeName (Dir ename es))) st).
      destruct (walk os findGoMod_func
                  (Join os path (nodeName (Dir ename es)))
                  (Dir ename es) st) as [st1 [er|]].
      * destruct He as [He|He]; [discriminate He|].
        cbn [snd] in He. injection He as ->.
        cbn [nodeIsDir is_SkipDir negb orb]. apply IHrest.
      * apply IHrest.
Qed.

(** The listing of a readable directory that holds a file [go.mod] ends at
    that file. *)
Lemma rangeNames_manifest (path : string) (names : list node) :
  forallb readable names = true ->
  In (File "go.mod") names ->
  forall st : string,
    rangeNames os findGoMod_func
      (fun filename e st => walk os findGoMod_func filename e st)
      path names st =
    (Join os path "go.mod", Some SkipDir).
Proof.
  induction names as [|e rest IH]; intros Hr Hin st; [destruct Hin|].
  cbn [forallb] in Hr. apply andb_true_iff in Hr as [Hre Hrrest].
  cbn [rangeNames].
  destruct e as [ename|ename es|ename emsg|ename emsg]; try discriminate Hre.
  - cbn [walk findGoMod_func lstat nodeName nodeIsDir IsDir Name negb andb].
    destruct (String.eqb_spec ename "go.mod") as [->|Hne].
    + reflexivity.
    + apply IH; [exact Hrrest|]. destruct Hin as [Hin|Hin]; [|exact Hin].
      congruence.
  - assert (Hrest : In (File "go.mod") rest)
      by (destruct Hin as [Hin|Hin]; [discriminate|exact Hin]).
    pose proof (@walk_readable_quiet (Dir ename es) Hre
                  (Join os path (nodeName (Dir ename es))) st) as Hq.
    destruct (walk os findGoMod_func (Join os path (nodeName (Dir ename es)))
                (Dir ename es) st) as [st1 [er|]].
    + destruct Hq as [Hq|Hq]; [discriminate Hq|].
      cbn [snd] in Hq. injection Hq as ->.
      cbn [nodeIsDir is_SkipDir negb orb]. now apply IH.
    + now apply IH.
Qed.

End ReadableWalk.

Lemma Join_not_empty (os dir name : string) :
  name <> "" -> (Join os dir name =? "") = false.
Proof.
  intros Hn. apply String.eqb_neq. unfold Join, Separator.
  destruct dir; [|discriminate].
  destruct (is_windows os); discriminate.
Qed.

(** In a checkout that can be read throughout and holds a file [go.mod]
    directly in its root, [findGoMod] returns that file, whatever manifests
    the subdirectories hold. *)
Theorem findGoMod_root_manifest :
  forall (os name : string) (entries : list node) (dir : string),
    forallb readable entries = true ->
    In (File "go.mod") entries ->
    findGoMod os (Dir name entries) dir = (Join os dir "go.mod", None).
Proof.
  intros os name entries dir Hr Hin. unfold findGoMod, Walk.
  cbn [readDir walk findGoMod_func lstat nodeIsDir IsDir negb andb].
  rewrite (@rangeNames_manifest os dir (sortByName (map readDir entries))).
  - cbn [is_SkipDir orb]. rewrite Join_not_empty; [reflexivity|discriminate].
  - apply forallb_forall. intros x Hx.
    apply In_sortByName, in_map_iff in Hx as [y [<- Hy]].
    apply readable_readDir. rewrite forallb_forall in Hr. now apply Hr.
  - apply In_sortByName, in_map_iff. exists (File "go.mod"). now split.
Qed.

Lemma findGoMod_root_manifest_witness :
  findGoMod "linux"
    (Dir "ws" [File "main.go"; File "go.mod"; Dir "cmd" [File "go.mod"];
               Dir "tools" [File "go.mod"]]) "/tmp/ws" =
  ("/tmp/ws/go.mod", None).
Proof.
  apply (@findGoMod_root_manifest "linux" "ws"
           [File "main.go"; File "go.mod"; Dir "cmd" [File "go.mod"];
            Dir "tools" [File "go.mod"]] "/tmp/ws").
  - reflexivity.
  - right; left; reflexivity.
Defined.

(** ** The manifest parser *)

(** [parseGoMod] succeeds exactly when the file is read, the normalised text
    parses and the parsed file has a module directive. *)
Theorem parseGoMod_success_iff :
  forall (ReadFile : ReadFileT) (Parse : ParseT) (goModPath : string),
    snd (parseGoMod ReadFile Parse goModPath) = None <->
    exists (data : string) (modFile : ModFile) (module : ModuleDirective),
      ReadFile goModPath = (data, None)
      /\ Parse goModPath (ReplaceAll data CRLF LF) = (modFile, None)
      /\ File_Module modFile = Some module.
Proof.
  intros ReadFile Parse p. unfold parseGoMod.
  destruct (ReadFile p) as [data [e|]] eqn:Hread; cbn [snd].
  { split; [discriminate|]. intros (d & mf & m & H & _). discriminate H. }
  destruct (Parse p (ReplaceAll data CRLF LF)) as [mf [e|]] eqn:Hparse;
    cbn [snd].
  { split; [discriminate|]. intros (d & mf' & m & H & H' & _).
    injection H as <-. rewrite Hparse in H'. discriminate H'. }
  destruct (File_Module mf) as [m|] eqn:Hmod; cbn [snd].
  - split; [|reflexivity]. intros _. now exists data, mf, m.
  - split; [discriminate|]. intros (d & mf' & m & H & H' & Hm).
    injection H as <-. rewrite Hparse in H'. injection H' as <-.
    congruence.
Qed.



(** The normalisation undoes the CRLF encoding of any text: replacing every
    LF by CRLF and then every CRLF by LF gives the text back. *)
Theorem normalise_CRLF_roundtrip :
  forall t : string, ReplaceAll (ReplaceAll t LF CRLF) CRLF LF = t.
Proof. intros t. exact (ReplaceAll_toCRLF t). Qed.

(** On a manifest without CRLF, a success of the earlier revision is a
    success of the current one with the same module path and version. *)
Theorem parseGoMod_extends_Legacy :
  forall (ReadFile : ReadFileT) (Parse : ParseT) (goModPath : string)
         (data name version : string),
    ReadFile goModPath = (data, None) ->
    Contains data CRLF = false ->
    Legacy.parseGoMod ReadFile Parse goModPath = Some (name, version, None) ->
    parseGoMod ReadFile Parse goModPath = (name, version, None).
Proof.
  intros ReadFile Parse p data name version Hread Hlf.
  unfold Legacy.parseGoMod, parseGoMod. rewrite Hread.
  rewrite (ReplaceAll_LF_only data Hlf).
  destruct (Parse p data) as [mf [e|]]; [discriminate|].
  destruct (File_Module mf) as [m|]; [|discriminate].
  destruct (File_Go mf) as [g|]; [|discriminate].
  intros H; injection H as <- <-. reflexivity.
Qed.

Lemma parseGoMod_extends_Legacy_witness :
  parseGoMod (fileWith manifestFull) lineParse "go.mod" =
  ("example.com/foo", "1.21", None).
Proof.
  apply (@parseGoMod_extends_Legacy (fileWith manifestFull) lineParse "go.mod"
           manifestFull "example.com/foo" "1.21"); reflexivity.
Defined.

(** ** The workspace *)

(** Off Windows two acquisitions in a row never return the same
    directory. *)
Theorem createTempDir_twice_distinct :
  forall (os tmp : string) (rnd rnd' : nat -> string) (fs fs1 fs2 : FS)
         (p1 p2 : string),
    os <> "windows" ->
    createTempDir os tmp rnd fs = (p1, fs1, None) ->
    createTempDir os tmp rnd' fs1 = (p2, fs2, None) ->
    p1 <> p2.
Proof.
  intros os tmp rnd rnd' fs fs1 fs2 p1 p2 Hos. unfold createTempDir.
  destruct (String.eqb_spec os "windows") as [|_]; [contradiction|].
  unfold MkdirTemp. intros H1 H2.
  apply MkdirTemp_loop_ok in H1 as [_ [_ ->]].
  apply MkdirTemp_loop_ok in H2 as [_ [Hnew _]].
  intros <-. rewrite addDir_lookup in Hnew. discriminate Hnew.
Qed.

Lemma createTempDir_twice_distinct_witness :
  "/tmp/go-dep-analysis123" <> "/tmp/go-dep-analysis456".
Proof.
  apply (@createTempDir_twice_distinct "linux" "/tmp"
           (fun _ => "123") (fun n => if (n =? 0)%nat then "123" else "456")
           emptyFS (addDir emptyFS "/tmp/go-dep-analysis123")
           (addDir (addDir emptyFS "/tmp/go-dep-analysis123")
                   "/tmp/go-dep-analysis456")).
  - discriminate.
  - reflexivity.
  - reflexivity.
Defined.

(** On Windows an acquisition that follows a successful one returns the
    same directory and changes nothing. *)
Theorem createTempDir_windows_again :
  forall (tmp : string) (rnd rnd' : nat -> string) (fs fs1 : FS) (p1 : string),
    createTempDir "windows" tmp rnd fs = (p1, fs1, None) ->
    createTempDir "windows" tmp rnd' fs1 = (p1, fs1, None).
Proof.
  intros tmp rnd rnd' fs fs1 p1. unfold createTempDir.
  change ("windows" =? "windows") with true. cbv iota. unfold MkdirAll.
  destruct (lookupDir fs (Join "windows" tmp "go-dep-analysis"))
    as [names|] eqn:Hl.
  - intros H; injection H as <- <-. now rewrite Hl.
  - destruct (Mkdir fs (Join "windows" tmp "go-dep-analysis"))
      as [fs' [e|]] eqn:Hmk; [discriminate|].
    intros H; injection H as <- <-.
    apply Mkdir_ok in Hmk as [_ ->]. now rewrite addDir_lookup.
Qed.

Lemma createTempDir_windows_again_witness :
  createTempDir "windows" "C:\Temp" (fun _ => "456")
                (addDir emptyFS "C:\Temp\go-dep-analysis") =
  ("C:\Temp\go-dep-analysis", addDir emptyFS "C:\Temp\go-dep-analysis", None).
Proof.
  apply (@createTempDir_windows_again "C:\Temp" (fun _ => "123")
           (fun _ => "456") emptyFS).
  reflexivity.
Defined.

(** ** The release of the workspace *)

Lemma removals_after_attempt (cs : list syscall) (dir : string) :
  List.length (filter isRemoveAll ((cs ++ [sysRemoveAll dir]) ++ [sysSleep 200]))
  = S (List.length (filter isRemoveAll cs)).
Proof.
  rewrite !filter_app, !length_app. cbn. lia.
Qed.

(** On Windows [cleanupTempDir] succeeds as soon as one of three removals
    succeeds; when all three fail it returns its own error, not the one of
    the operating system. *)
Theorem cleanupTempDir_windows_retries :
  forall (w : World) (dir : string) (p : proc),
    GOOS w = "windows" ->
    let n := List.length (filter isRemoveAll (calls p)) in
    fst (cleanupTempDir w dir p) =
    Running
      (match RemoveAll_err w n, RemoveAll_err w (S n),
             RemoveAll_err w (S (S n)) with
       | Some _, Some _, Some _ =>
           Some (errorString
                   "error removing temporary directory after 3 attempts")
       | _, _, _ => None
       end).
Proof.
  intros w dir p Hos n. unfold cleanupTempDir. rewrite Hos.
  change ("windows" =? "windows") with true. cbv iota.
  unfold cleanupAttempts, os_RemoveAll, bind, call, ret.
  cbn [calls stdout logged deferred fst]. fold n.
  destruct (RemoveAll_err w n) as [e1|]; [|reflexivity].
  cbn [calls stdout logged deferred fst].
  rewrite removals_after_attempt. fold n.
  destruct (RemoveAll_err w (S n)) as [e2|]; [|reflexivity].
  cbn [calls stdout logged deferred fst].
  rewrite removals_after_attempt, removals_after_attempt. fold n.
  destruct (RemoveAll_err w (S (S n))) as [e3|]; reflexivity.
Qed.

Lemma cleanupTempDir_windows_retries_witness :
  fst (cleanupTempDir windowsRetry "C:\Temp\go-dep-analysis" start) =
  Running None.
Proof.
  apply (@cleanupTempDir_windows_retries windowsRetry
           "C:\Temp\go-dep-analysis" start).
  reflexivity.
Defined.

(** What [cleanupTempDir] does to the process: it returns, it adds calls
    that are removals of [dir] or sleeps of 200 ms, and it leaves the rest
    of the state alone. *)
Lemma cleanupTempDir_added (w : World) (dir : string) (p : proc) :
  exists (r : option error) (added : list syscall),
    cleanupTempDir w dir p =
      (Running r,
       {| stdout := stdout p; logged := logged p;
          calls := (calls p ++ added)%list; deferred := deferred p |})
    /\ Forall (fun c => c = sysRemoveAll dir \/ c = sysSleep 200) added
    /\ (1 <= List.length (filter isRemoveAll added) <= 3)%nat
    /\ (GOOS w <> "windows" -> added = [sysRemoveAll dir]).
Proof.
  unfold cleanupTempDir.
  destruct (String.eqb_spec (GOOS w) "windows") as [Hos|Hos].
  - unfold cleanupAttempts, os_RemoveAll, bind, call, ret.
    cbn [calls stdout logged deferred].
    repeat match goal with
           | |- context [RemoveAll_err w ?n] =>
               destruct (RemoveAll_err w n);
               cbn [calls stdout logged deferred]
           end;
      rewrite <- ?app_assoc; cbn [app];
      eexists; eexists; (split; [reflexivity|]);
      (split; [repeat constructor; auto|]);
      (split; [cbn; lia|congruence]).
  - unfold os_RemoveAll, bind, call, ret. cbn [calls stdout logged deferred].
    exists (RemoveAll_err w (List.length (filter isRemoveAll (calls p)))),
      [sysRemoveAll dir].
    split; [reflexivity|]. split; [repeat constructor; auto|].
    split; [cbn; lia|reflexivity].
Qed.

(** [cleanupTempDir] makes at least one and at most three removals, all of
    the directory it is given, and exactly one off Windows; it writes
    nothing and does not end the process. *)
Theorem cleanupTempDir_removals_bounded :
  forall (w : World) (dir : string) (p : proc),
    exists (r : option error) (k : nat),
      fst (cleanupTempDir w dir p) = Running r
      /\ filter isRemoveAll (calls (snd (cleanupTempDir w dir p))) =
         (filter isRemoveAll (calls p) ++ repeat (sysRemoveAll dir) k)%list
      /\ (1 <= k <= 3)%nat
      /\ (GOOS w <> "windows" -> k = 1)
      /\ stdout (snd (cleanupTempDir w dir p)) = stdout p
      /\ logged (snd (cleanupTempDir w dir p)) = logged p.
Proof.
  intros w dir p.
  destruct (cleanupTempDir_added w dir p)
    as (r & added & -> & Hall & Hk & Hlin).
  exists r, (List.length (filter isRemoveAll added)).
  cbn [fst snd calls stdout logged]. split; [reflexivity|].
  split.
  - rewrite filter_app. f_equal. clear Hk Hlin.
    induction Hall as [|c cs [->| ->] _ IH]; cbn; [reflexivity| |exact IH].
    f_equal. exact IH.
  - split; [exact Hk|]. split; [|now split].
    intros Hos. now rewrite (Hlin Hos).
Qed.

(** ** The run of the program, step by step *)

Section Steps.

Variable w : World.

(** A body of [main] that returns has passed every step. *)
Lemma main_body_returns (u : unit) (p : proc) :
  main_body w start = (Running u, p) ->
  exists (tempDir : string) (fs' : FS) (goModPath moduleName goVersion : string)
         (deps : list ModuleInfo),
    (List.length (Args w) <? 2)%nat = false
    /\ createTempDir (GOOS w) (TempDir w) (nextRandom w) (fs0 w) =
       (tempDir, fs', None)
    /\ Run_err w (gitCloneArgs (GOOS w) (nth 1 (Args w) "") tempDir) = None
    /\ findGoMod (GOOS w) (treeAt w tempDir) tempDir = (goModPath, None)
    /\ parseGoMod (ReadFile w) (Parse w) goModPath =
       (moduleName, goVersion, None)
    /\ getDependencies (GOOS w) (listing w) tempDir = (deps, None)
    /\ p = {| stdout := printResults moduleName goVersion deps "";
              logged := [];
              calls := [sysRun (gitCloneArgs (GOOS w) (nth 1 (Args w) "")
                                             tempDir)];
              deferred := [deferCleanup tempDir] |}.
Proof.
  unfold main_body, gitCloneArgs.
  destruct (List.length (Args w) <? 2)%nat; [discriminate|].
  destruct (createTempDir (GOOS w) (TempDir w) (nextRandom w) (fs0 w))
    as [[tempDir fs'] [e|]]; [discriminate|].
  unfold cloneRepo, bind, defer, call, ret, write, start.
  cbn [calls stdout logged deferred app].
  destruct (Run_err w _) as [e|] eqn:Hrun; [discriminate|].
  destruct (findGoMod (GOOS w) (treeAt w tempDir) tempDir)
    as [goModPath [e|]] eqn:Hfind; [discriminate|].
  destruct (parseGoMod (ReadFile w) (Parse w) goModPath)
    as [[moduleName goVersion] [e|]] eqn:Hparse; [discriminate|].
  destruct (getDependencies (GOOS w) (listing w) tempDir)
    as [deps [e|]] eqn:Hdeps; [discriminate|].
  cbn [calls stdout logged deferred].
  intros H; injection H; intros; subst p.
  exists tempDir, fs', goModPath, moduleName, goVersion, deps.
  repeat split; first [assumption|reflexivity].
Qed.

(** A body of [main] that leaves does so with status 1, having removed
    nothing: after the usage message when the argument is missing,
    otherwise after one diagnostic and with nothing on standard output. *)
Lemma main_body_exits (code : nat) (p : proc) :
  main_body w start = (Exited code, p) ->
  code = 1
  /\ filter isRemoveAll (calls p) = []
  /\ if (List.length (Args w) <? 2)%nat
     then logged p = [] /\ calls p = []
          /\ stdout p = "Usage: go run main.go <git-repo-url>" ++ LF
     else List.length (logged p) = 1 /\ stdout p = "".
Proof.
  unfold main_body.
  destruct (List.length (Args w) <? 2)%nat.
  { intros H; injection H as <- <-. repeat split. }
  destruct (createTempDir (GOOS w) (TempDir w) (nextRandom w) (fs0 w))
    as [[tempDir fs'] [e|]].
  { intros H; injection H as <- <-. repeat split. }
  unfold cloneRepo, bind, defer, call, ret, write, start.
  cbn [calls stdout logged deferred app].
  destruct (Run_err w _) as [e|].
  { intros H; injection H as <- <-. repeat split. }
  destruct (findGoMod (GOOS w) (treeAt w tempDir) tempDir) as [goModPath [e|]].
  { intros H; injection H as <- <-. repeat split. }
  destruct (parseGoMod (ReadFile w) (Parse w) goModPath)
    as [[moduleName goVersion] [e|]].
  { intros H; injection H as <- <-. repeat split. }
  destruct (getDependencies (GOOS w) (listing w) tempDir) as [deps [e|]].
  { intros H; injection H as <- <-. repeat split. }
  discriminate.
Qed.

(** The deferred call returns or leaves with status 1 after one diagnostic;
    the calls it adds are removals of its directory and sleeps. *)
Lemma runAllDeferred_added (dir : string) (p : proc) :
  exists (added : list syscall) (st : status unit) (ls : list string),
    runAllDeferred w [deferCleanup dir] p =
      (st, {| stdout := stdout p; logged := (logged p ++ ls)%list;
              calls := (calls p ++ added)%list; deferred := deferred p |})
    /\ Forall (fun c => c = sysRemoveAll dir \/ c = sysSleep 200) added
    /\ match st with
       | Running _ => ls = []
       | Exited code => code = 1 /\ List.length ls = 1
       end.
Proof.
  cbn [runAllDeferred runDeferred]. unfold bind.
  destruct (cleanupTempDir_added w dir p) as (r & added & -> & Hall & _).
  destruct r as [e|]; cbn [log_Fatalf ret calls stdout logged deferred].
  - exists added, (Exited 1), ["Error cleaning up temporary directory: " ++ Error e].
    repeat split; assumption.
  - exists added, (Running tt), []. rewrite app_nil_r. repeat split; assumption.
Qed.

End Steps.

(** ** The run of the program, as a whole *)



(** Whenever the process leaves through [os.Exit], the status is 1. *)
Theorem main_exit_status_one :
  forall (w : World) (code : nat) (p : proc),
    main w = (Exited code, p) -> code = 1.
Proof.
  intros w code p. unfold main, function.
  destruct (main_body w start) as [[[]|c] p0] eqn:Hbody.
  - apply main_body_returns in Hbody
      as (tempDir & fs' & g & m & v & deps & _ & _ & _ & _ & _ & _ & ->).
    cbn [deferred].
    destruct (runAllDeferred_added w tempDir
                {| stdout := printResults m v deps ""; logged := [];
                   calls := [sysRun (gitCloneArgs (GOOS w)
                                       (nth 1 (Args w) "") tempDir)];
                   deferred := [deferCleanup tempDir] |})
      as (added & st & ls & -> & _ & Hst).
    intros H; injection H as -> _. now destruct Hst.
  - apply main_body_exits in Hbody as [-> _].
    intros H; now injection H as <- _.
Qed.

Lemma main_exit_status_one_witness : 1 = 1.
Proof.
  apply (@main_exit_status_one cloneFails 1
           {| stdout := "";
              logged := ["Error cloning repository: error cloning repository: exit status 128"];
              calls := [sysRun ["git"; "clone";
                                "https://example.com/missing.git";
                                "/tmp/go-dep-analysis123"]];
              deferred := [deferCleanup "/tmp/go-dep-analysis123"] |}).
  reflexivity.
Defined.



Lemma removal_in_calls (path : string) (cs : list syscall) :
  In (sysRemoveAll path) cs -> filter isRemoveAll cs <> [].
Proof.
  intros Hin Hnone.
  assert (H : In (sysRemoveAll path) (filter isRemoveAll cs))
    by (apply filter_In; now split).
  now rewrite Hnone in H.
Qed.

(** The only directory [main] ever removes is the one [createTempDir]
    returned in this run. *)
Theorem main_removes_only_workspace :
  forall (w : World) (path : string),
    In (sysRemoveAll path) (calls (snd (main w))) ->
    exists fs' : FS,
      createTempDir (GOOS w) (TempDir w) (nextRandom w) (fs0 w) =
      (path, fs', None).
Proof.
  intros w path. unfold main, function.
  destruct (main_body w start) as [[[]|c] p0] eqn:Hbody.
  - apply main_body_returns in Hbody
      as (tempDir & fs' & g & m & v & deps & _ & Hdir & _ & _ & _ & _ & ->).
    cbn [deferred].
    destruct (runAllDeferred_added w tempDir
                {| stdout := printResults m v deps ""; logged := [];
                   calls := [sysRun (gitCloneArgs (GOOS w)
                                       (nth 1 (Args w) "") tempDir)];
                   deferred := [deferCleanup tempDir] |})
      as (added & st & ls & -> & Hall & _).
    cbn [snd calls]. intros Hin. apply in_app_or in Hin as [Hin|Hin].
    + destruct Hin as [Hin|[]]. discriminate Hin.
    + rewrite Forall_forall in Hall.
      destruct (Hall _ Hin) as [H|H]; [|discriminate H].
      injection H as ->. now exists fs'.
  - apply main_body_exits in Hbody as (_ & Hnone & _). cbn [snd].
    intros Hin. now apply removal_in_calls in Hin.
Qed.

Lemma main_removes_only_workspace_witness :
  exists fs' : FS,
    createTempDir "linux" "/tmp" (fun _ => "123") emptyFS =
    ("/tmp/go-dep-analysis123", fs', None).
Proof.
  apply (@main_removes_only_workspace allSucceeds "/tmp/go-dep-analysis123").
  cbn. right; left; reflexivity.
Defined.

(** A run logs at most one diagnostic: none when it returns or stops at the
    usage message, exactly one when it leaves after a failure. *)
Theorem main_one_diagnostic :
  forall w : World,
    match fst (main w) with
    | Running _ => logged (snd (main w)) = []
    | Exited _ =>
        if (List.length (Args w) <? 2)%nat
        then logged (snd (main w)) = []
        else List.length (logged (snd (main w))) = 1
    end.
Proof.
  intros w. unfold main, function.
  destruct (main_body w start) as [[[]|c] p0] eqn:Hbody.
  - apply main_body_returns in Hbody
      as (tempDir & fs' & g & m & v & deps & Hargs & _ & _ & _ & _ & _ & ->).
    cbn [deferred].
    destruct (runAllDeferred_added w tempDir
                {| stdout := printResults m v deps ""; logged := [];
                   calls := [sysRun (gitCloneArgs (GOOS w)
                                       (nth 1 (Args w) "") tempDir)];
                   deferred := [deferCleanup tempDir] |})
      as (added & st & ls & -> & _ & Hst).
    cbn [fst snd logged app]. destruct st as [u|code].
    + exact Hst.
    + rewrite Hargs. now destruct Hst.
  - apply main_body_exits in Hbody as (_ & _ & H). cbn [fst snd].
    destruct (List.length (Args w) <? 2)%nat; now destruct H.
Qed.

Lemma main_exit_skips_release_witness :
  main cloneFails =
    (Exited 1,
     {| stdout := "";
        logged := ["Error cloning repository: error cloning repository: exit status 128"];
        calls := [sysRun ["git"; "clone"; "https://example.com/missing.git";
                          "/tmp/go-dep-analysis123"]];
        deferred := [deferCleanup "/tmp/go-dep-analysis123"] |})
  /\ forall dir : string,
      released dir
        {| stdout := "";
           logged := ["Error cloning repository: error cloning repository: exit status 128"];
           calls := [sysRun ["git"; "clone"; "https://example.com/missing.git";
                             "/tmp/go-dep-analysis123"]];
           deferred := [deferCleanup "/tmp/go-dep-analysis123"] |} = false.
Proof.
  apply (@main_exit_skips_release cloneFails 1). reflexivity.
Defined.

Lemma main_return_releases_witness :
  exists dir : string,
    deferred
      {| stdout := printResults "example.com/foo" "1.21" [] "";
         logged := [];
         calls := [sysRun ["git"; "clone"; "https://example.com/foo.git";
                           "/tmp/go-dep-analysis123"]];
         deferred := [deferCleanup "/tmp/go-dep-analysis123"] |} =
      [deferCleanup dir]
    /\ released dir (snd (main allSucceeds)) = true.
Proof.
  apply (@main_return_releases allSucceeds). reflexivity.
Defined.

(** ** The run of the earlier revision *)



(** In the earlier revision too, a body of [main] that leaves through
    [os.Exit] (the usage exit and every [log.Fatalf]) ends the process
    there, with status 1 and without any removal. *)
Theorem Legacy_main_exit_skips_release :
  forall (w : World) (code : nat) (p : proc),
    LegacyRun.main_body w start = (Exited code, p) ->
    LegacyRun.main w = (Exited code, p)
    /\ code = 1
    /\ filter isRemoveAll (calls p) = [].
Proof.
  intros w code p H. split.
  { unfold LegacyRun.main, LegacyRun.function. now rewrite H. }
  revert H. unfold LegacyRun.main_body.
  destruct (List.length (Args w) <? 2)%nat.
  { intros H; injection H as <- <-. now split. }
  destruct (MkdirTemp (GOOS w) (TempDir w) (nextRandom w) (fs0 w)
              "go-dep-analysis") as [[temDir fs'] [e|]].
  { intros H; injection H as <- <-. now split. }
  unfold LegacyRun.cloneRepo, bind, defer, call, ret, write, start.
  cbn [calls stdout logged deferred app].
  destruct (Run_err w _) as [e|].
  { intros H; injection H as <- <-. now split. }
  destruct (Legacy.findGoMod (GOOS w) (treeAt w temDir) temDir)
    as [goModPath [e|]].
  { intros H; injection H as <- <-. now split. }
  destruct (Legacy.parseGoMod (ReadFile w) (Parse w) goModPath)
    as [[[moduleName goVersion] [e|]]|].
  - intros H; injection H as <- <-. now split.
  - destruct (Legacy.getDependencies (go_list (listing w)) temDir)
      as [deps [e|]].
    + intros H; injection H as <- <-. now split.
    + discriminate.
  - discriminate.
Qed.

Lemma Legacy_main_exit_skips_release_witness :
  LegacyRun.main cloneFails =
    (Exited 1,
     {| stdout := "";
        logged := ["Error cloning repository: exit status 128"];
        calls := [sysRun ["git"; "clone"; "https://example.com/missing.git";
                          "/tmp/go-dep-analysis123"]];
        deferred := [deferCleanup "/tmp/go-dep-analysis123"] |})
  /\ 1 = 1
  /\ filter isRemoveAll
       [sysRun ["git"; "clone"; "https://example.com/missing.git";
                "/tmp/go-dep-analysis123"]] = [].
Proof.
  apply (@Legacy_main_exit_skips_release cloneFails 1). reflexivity.
Defined.
